(** * pdfreader: the pagination / reflow core

    A shallow embedding of [src/paginate.ts] (the Layout Probe that asks the
    DOM for one element per token), of its element-collection variant, of
    [src/storage.ts], of the functions of [src/pdf.ts] that turn text items
    into paragraphs and tokens, and of the state transitions of
    [src/App.tsx], together with the properties the specification states
    about them and further properties read off the code.

    Numbers.  The DOM reports [clientWidth] and [scrollWidth] as integers;
    page indices, token indices and counts are integers too, so all of these
    are [Z].  Rectangle offsets and [scrollLeft] may be fractional and are
    rationals ([Q]); [Math.floor] and [Math.ceil] are [Qfloor] and
    [Qceiling].  For integer operands below 2^53 the correctly rounded
    quotient of two doubles never crosses an integer, so the exact rational
    quotient has the same floor and ceiling as the JavaScript one.  Sums and
    differences of fractional offsets are rounded by JavaScript and are exact
    here, so the two can differ next to a column boundary; the theorems that
    locate a token by the sum [rect.left - viewportRect.left + scrollLeft]
    are stated for offsets that are whole pixels
    ([Layout.exactlyMeasured]), where the doubles are exact too. *)

From Stdlib Require Import ZArith QArith Qround List String Ascii Lia.
From Stdlib Require Import DecimalString DecimalZ DecimalPos Lqa.
From stdpp Require Import gmap strings list.

Close Scope Q_scope.
Open Scope Z_scope.

(** ** JavaScript helpers *)

Module JS.

(** Template-literal interpolation of an integer-valued number:
    [`${n}`] is the decimal numeral of [n], with a leading minus sign for
    negative values (JavaScript switches to exponent notation from 10^21
    on, far beyond any token index). *)
Definition toString (n : Z) : string :=
  NilZero.string_of_int (Z.to_int n).

(** [Number(s)] on the strings the renderer can put into [data-idx]:
    [Some n] for a decimal integer numeral (digits with an optional leading
    minus; leading zeros are accepted, as in JavaScript) and for the empty
    string, which JavaScript converts to 0.  [None] stands for [NaN].
    Numerals of other shapes (surrounding white space, a plus sign,
    fractions, exponents, hexadecimal) are outside this model and also
    answer [None]. *)
Definition Number (s : string) : option Z :=
  match s with
  | EmptyString => Some 0
  | _ => option_map Z.of_int (NilZero.int_of_string s)
  end.

(** [Math.min(Math.max(value, min), max)], the [clamp] helper of App.tsx. *)
Definition clamp (value min max : Z) : Z :=
  Z.min (Z.max value min) max.

End JS.

(** ** The rendering host *)

(** Only [left] of a [DOMRect] is ever read. *)
Record DOMRect := mkDOMRect { left : Q }.

(** An [HTMLElement] as far as the engine looks at it.  [dataIdx] is the
    [data-idx] attribute ([None] when the attribute is absent), and
    [descendants] lists all descendant elements in document order, which is
    the order [querySelector] and [querySelectorAll] search in. *)
#[warnings="-register-all"]
Inductive HTMLElement := mkHTMLElement {
  clientWidth : Z;
  scrollWidth : Z;
  scrollLeft : Q;
  clientRects : list DOMRect;
  boundingClientRect : DOMRect;
  dataIdx : option string;
  descendants : list HTMLElement
}.

(** [el.matches('[data-idx="v"]')]. *)
Definition matchesDataIdx (v : string) (el : HTMLElement) : bool :=
  match dataIdx el with
  | Some a => String.eqb a v
  | None => false
  end.

(** [flow.querySelector(`[data-idx="${v}"]`)]: the first descendant, in
    document order, whose attribute is exactly [v]; [None] is [null]. *)
Definition querySelector (flow : HTMLElement) (v : string) : option HTMLElement :=
  List.find (matchesDataIdx v) (descendants flow).

(** [el.matches('[data-idx]')]: the attribute is present, whatever its value. *)
Definition hasDataIdx (el : HTMLElement) : bool :=
  match dataIdx el with
  | Some _ => true
  | None => false
  end.

(** [Array.from(flow.querySelectorAll('[data-idx]'))]. *)
Definition querySelectorAll (flow : HTMLElement) : list HTMLElement :=
  List.filter hasDataIdx (descendants flow).

(** ** Tokens (pdf.ts) *)

Module Pdf.

Record Token := mkToken { idx : Z; text : string }.

Record Paragraph := mkParagraph { id : string; tokens : list Token }.

End Pdf.

(** The value a loader resolves with ([LoadResult] of pdf.ts); [title] is
    optional. *)
Module LoadResult.

Record t := mk {
  docId : string;
  tokens : list Pdf.Token;
  paragraphs : list Pdf.Paragraph;
  title : option string
}.

End LoadResult.

(** ** paginate.ts: one [querySelector] per token *)

Module Paginate.

Definition getPageCount (viewport flow : HTMLElement) : Z :=
  let viewportWidth := Z.max 1 (clientWidth viewport) in
  let totalWidth := scrollWidth flow in
  Z.max 1 (Qceiling (inject_Z totalWidth / inject_Z viewportWidth)).

Definition getTokenPageFromElement (el viewport : HTMLElement) : Z :=
  let rect :=
    match clientRects el with
    | r :: _ => r
    | [] => boundingClientRect el
    end in
  let viewportRect := boundingClientRect viewport in
  let relativeLeft := (left rect - left viewportRect + scrollLeft viewport)%Q in
  let width := Z.max 1 (clientWidth viewport) in
  Z.max 0 (Qfloor (relativeLeft / inject_Z width)).

Definition getTokenPageIndex (tokenIdx : Z) (flow viewport : HTMLElement) : option Z :=
  match querySelector flow (JS.toString tokenIdx) with
  | None => None
  | Some el => Some (getTokenPageFromElement el viewport)
  end.

(** The [for ... of] loop returns from inside the body at the first hit. *)
Fixpoint findAnchorTokenIndex (toks : list Pdf.Token) (flow viewport : HTMLElement)
    (pageIndex : Z) : option Z :=
  match toks with
  | [] => None
  | token :: rest =>
      match querySelector flow (JS.toString (Pdf.idx token)) with
      | None => findAnchorTokenIndex rest flow viewport pageIndex
      | Some el =>
          let tokenPage := getTokenPageFromElement el viewport in
          if tokenPage =? pageIndex then Some (Pdf.idx token)
          else findAnchorTokenIndex rest flow viewport pageIndex
      end
  end.

(** One turn of the counting loop: the body of the [for], with the page
    computation written inline as in the source. *)
Definition countWordsStep (flow viewport : HTMLElement) (pageIndex : Z)
    (count : Z) (token : Pdf.Token) : Z :=
  let width := Z.max 1 (clientWidth viewport) in
  let viewportRect := boundingClientRect viewport in
  match querySelector flow (JS.toString (Pdf.idx token)) with
  | None => count
  | Some el =>
      let rect :=
        match clientRects el with
        | r :: _ => r
        | [] => boundingClientRect el
        end in
      let relativeLeft := (left rect - left viewportRect + scrollLeft viewport)%Q in
      let tokenPage := Z.max 0 (Qfloor (relativeLeft / inject_Z width)) in
      if tokenPage =? pageIndex then count + 1 else count
  end.

Definition countWordsForPage (toks : list Pdf.Token) (flow viewport : HTMLElement)
    (pageIndex : Z) : Z :=
  List.fold_left (countWordsStep flow viewport pageIndex) toks 0.

End Paginate.

(** ** The element-collection variant of the Layout Probe

    The second implementation collects the token elements once
    ([collectTokenElements]) and then works on the ordered element list and
    on an index-to-element map. *)

Module PaginateElements.

Definition getPageCount (viewport flow : HTMLElement) : Z :=
  let viewportWidth := Z.max 1 (clientWidth viewport) in
  let totalWidth := scrollWidth flow in
  Z.max 1 (Qceiling (inject_Z totalWidth / inject_Z viewportWidth)).

Definition getTokenPageFromElement (el viewport : HTMLElement) : Z :=
  let rect :=
    match clientRects el with
    | r :: _ => r
    | [] => boundingClientRect el
    end in
  let viewportRect := boundingClientRect viewport in
  let relativeLeft := (left rect - left viewportRect + scrollLeft viewport)%Q in
  let width := Z.max 1 (clientWidth viewport) in
  Z.max 0 (Qfloor (relativeLeft / inject_Z width)).

Record TokenElements := mkTokenElements {
  ordered : list HTMLElement;
  byIndex : gmap Z HTMLElement
}.

(** Body of the loop that fills [byIndex]: an absent or empty attribute and
    a [NaN] index are skipped; [Map.set] overwrites an earlier entry. *)
Definition collectStep (m : gmap Z HTMLElement) (el : HTMLElement) : gmap Z HTMLElement :=
  match dataIdx el with
  | None => m
  | Some rawIdx =>
      if String.eqb rawIdx "" then m
      else match JS.Number rawIdx with
           | None => m
           | Some i => <[i := el]> m
           end
  end.

Definition collectTokenElements (flow : HTMLElement) : TokenElements :=
  let elements := querySelectorAll flow in
  let byIndex := List.fold_left collectStep elements ∅ in
  {| ordered := elements; byIndex := byIndex |}.

Definition getTokenPageIndex (tokenIdx : Z) (tokenElements : gmap Z HTMLElement)
    (viewport : HTMLElement) : option Z :=
  match tokenElements !! tokenIdx with
  | Some el => Some (getTokenPageFromElement el viewport)
  | None => None
  end.

(** [Number(el.dataset.idx)]: [NaN] when the attribute is absent. *)
Definition datasetIdxNumber (el : HTMLElement) : option Z :=
  match dataIdx el with
  | None => None
  | Some rawIdx => JS.Number rawIdx
  end.

Fixpoint findAnchorTokenIndex (orderedElements : list HTMLElement)
    (viewport : HTMLElement) (pageIndex : Z) : option Z :=
  match orderedElements with
  | [] => None
  | el :: rest =>
      let tokenPage := getTokenPageFromElement el viewport in
      if tokenPage =? pageIndex then
        match datasetIdxNumber el with
        | Some i => Some i
        | None => findAnchorTokenIndex rest viewport pageIndex
        end
      else findAnchorTokenIndex rest viewport pageIndex
  end.

Definition countWordsStep (viewport : HTMLElement) (pageIndex : Z)
    (count : Z) (el : HTMLElement) : Z :=
  let tokenPage := getTokenPageFromElement el viewport in
  if tokenPage =? pageIndex then count + 1 else count.

Definition countWordsForPage (orderedElements : list HTMLElement)
    (viewport : HTMLElement) (pageIndex : Z) : Z :=
  List.fold_left (countWordsStep viewport pageIndex) orderedElements 0.

End PaginateElements.

(** ** storage.ts *)

Module Storage.

Record ReadingState := mkReadingState { pageIndex : Z; fontSizePx : Z }.

Definition STORAGE_PREFIX : string := "reflow-reader:".

(** What [JSON.parse] can return.  Numbers are the integer ones, the only
    ones the application writes.  An object is its list of entries; a parsed
    object has no repeated key. *)
#[warnings="-register-all"]
Inductive JsValue :=
  | JsNull
  | JsBoolean (b : bool)
  | JsNumber (n : Z)
  | JsString (s : string)
  | JsArray (items : list JsValue)
  | JsObject (entries : list (string * JsValue)).

(** [typeof o[key] === 'number'], with the number when it holds. *)
Fixpoint numberProperty (key : string) (entries : list (string * JsValue)) : option Z :=
  match entries with
  | [] => None
  | (k, v) :: rest =>
      if String.eqb k key then
        match v with
        | JsNumber n => Some n
        | _ => None
        end
      else numberProperty key rest
  end.

Section Restore.

(** [JSON.parse] is the host's; [None] is a thrown [SyntaxError]. *)
Variable JSON_parse : string -> option JsValue.

(** [window.localStorage] as a map from keys to stored strings. *)
Variable localStorage : gmap string string.

(** Every exception inside the [try] ends in [return null]: the parse
    error, and the [TypeError] of reading a property of [null].  Reading a
    property of a boolean, number, string or array gives [undefined], whose
    [typeof] is not ['number']. *)
Definition restoreReadingState (docId : string) : option ReadingState :=
  match localStorage !! (STORAGE_PREFIX +:+ docId) with
  | None => None
  | Some value =>
      if String.eqb value "" then None
      else match JSON_parse value with
           | None => None
           | Some (JsObject entries) =>
               match numberProperty "pageIndex" entries,
                     numberProperty "fontSizePx" entries with
               | Some p, Some f => Some {| pageIndex := p; fontSizePx := f |}
               | _, _ => None
               end
           | Some _ => None
           end
  end.

End Restore.

Section Persist.

(** [JSON.stringify] is the host's. *)
Variable JSON_stringify : ReadingState -> string.

(** [persistReadingState]: the store afterwards.  [writeOk] tells whether
    the host accepts the [setItem] call; when it throws (storage full or
    switched off) the [catch] only logs a warning and the store is as it
    was. *)
Definition persistReadingState (writeOk : bool) (localStorage : gmap string string)
    (docId : string) (state : ReadingState) : gmap string string :=
  let payload := JSON_stringify state in
  if writeOk then <[(STORAGE_PREFIX +:+ docId)%string := payload]> localStorage
  else localStorage.

End Persist.

(** What the round trip needs of the host's JSON functions on one record:
    the text written is not empty and parses back to an object whose two
    properties are the record's numbers. *)
Definition parsesBack (JSON_parse : string -> option JsValue)
    (JSON_stringify : ReadingState -> string) (state : ReadingState) : Prop :=
  JSON_stringify state <> EmptyString /\
  exists entries,
    JSON_parse (JSON_stringify state) = Some (JsObject entries) /\
    numberProperty "pageIndex" entries = Some (pageIndex state) /\
    numberProperty "fontSizePx" entries = Some (fontSizePx state).

End Storage.

(** ** App.tsx *)

Module App.

Import Paginate.

Definition DEFAULT_FONT_SIZE : Z := 18.
Definition MIN_FONT : Z := 14.
Definition MAX_FONT : Z := 26.

(** The component's [useState] cells and its two [useRef] slots.  A state
    setter is modelled by replacing the field. *)
Record AppState := mkAppState {
  tokens : list Pdf.Token;
  paragraphs : list Pdf.Paragraph;
  docId : option string;
  docTitle : option string;
  pageCount : Z;
  pageIndex : Z;
  fontSize : Z;
  wordsOnPage : Z;
  loadingProgress : Q;
  isLoading : bool;
  error : option string;
  anchorTokenRef : option Z;
  pendingPageRef : option Z
}.

(** The state of the first render. *)
Definition initialState : AppState :=
  {| tokens := []; paragraphs := []; docId := None; docTitle := None;
     pageCount := 1; pageIndex := 0; fontSize := DEFAULT_FONT_SIZE;
     wordsOnPage := 0; loadingProgress := 0%Q; isLoading := false;
     error := None; anchorTokenRef := None; pendingPageRef := None |}.

(** [scrollToPage(index)]: the [left] handed to [viewport.scrollTo], or
    [None] when there is no viewport element and the call returns early. *)
Definition scrollToPage (viewportRef : option HTMLElement) (s : AppState)
    (index : Z) : option Z :=
  match viewportRef with
  | None => None
  | Some viewport =>
      let clampedIndex := JS.clamp index 0 (Z.max 0 (pageCount s - 1)) in
      let targetLeft := clampedIndex * clientWidth viewport in
      Some targetLeft
  end.

Definition handlePrev (viewportRef : option HTMLElement) (s : AppState) : option Z :=
  scrollToPage viewportRef s (pageIndex s - 1).

Definition handleNext (viewportRef : option HTMLElement) (s : AppState) : option Z :=
  scrollToPage viewportRef s (pageIndex s + 1).

Definition handlePageSelect (viewportRef : option HTMLElement) (s : AppState)
    (value : Z) : option Z :=
  scrollToPage viewportRef s value.

Definition captureAnchor (viewportRef flowRef : option HTMLElement)
    (s : AppState) : option Z :=
  match flowRef, viewportRef, tokens s with
  | Some flow, Some viewport, _ :: _ =>
      findAnchorTokenIndex (tokens s) flow viewport (pageIndex s)
  | _, _, _ => None
  end.

Definition onFontSizeChange (viewportRef flowRef : option HTMLElement)
    (s : AppState) (value : Z) : AppState :=
  {| tokens := tokens s; paragraphs := paragraphs s; docId := docId s;
     docTitle := docTitle s; pageCount := pageCount s; pageIndex := pageIndex s;
     fontSize := value;
     wordsOnPage := wordsOnPage s; loadingProgress := loadingProgress s;
     isLoading := isLoading s; error := error s;
     anchorTokenRef := captureAnchor viewportRef flowRef s;
     pendingPageRef := pendingPageRef s |}.

(** The [ResizeObserver] callback: the anchor is captured, then the size
    cell is refreshed.  The size itself is read off the viewport element
    whenever it is needed, so only the capture shows in the state. *)
Definition onResize (viewportRef flowRef : option HTMLElement)
    (s : AppState) : AppState :=
  {| tokens := tokens s; paragraphs := paragraphs s; docId := docId s;
     docTitle := docTitle s; pageCount := pageCount s; pageIndex := pageIndex s;
     fontSize := fontSize s;
     wordsOnPage := wordsOnPage s; loadingProgress := loadingProgress s;
     isLoading := isLoading s; error := error s;
     anchorTokenRef := captureAnchor viewportRef flowRef s;
     pendingPageRef := pendingPageRef s |}.

Definition updateWordsForPage (viewportRef flowRef : option HTMLElement)
    (s : AppState) (page : Z) : AppState :=
  {| tokens := tokens s; paragraphs := paragraphs s; docId := docId s;
     docTitle := docTitle s; pageCount := pageCount s; pageIndex := pageIndex s;
     fontSize := fontSize s;
     wordsOnPage :=
       match flowRef, viewportRef, tokens s with
       | Some flow, Some viewport, _ :: _ =>
           countWordsForPage (tokens s) flow viewport page
       | _, _, _ => 0
       end;
     loadingProgress := loadingProgress s;
     isLoading := isLoading s; error := error s;
     anchorTokenRef := anchorTokenRef s;
     pendingPageRef := pendingPageRef s |}.

(** The animation-frame callback of the scroll listener.  [Math.round]
    rounds half up: it is the floor of the value plus one half. *)
Definition onScrollFrame (viewport : HTMLElement) (s : AppState) : AppState :=
  let width := Z.max 1 (clientWidth viewport) in
  let currentPage := Qfloor (scrollLeft viewport / inject_Z width + (1 # 2))%Q in
  {| tokens := tokens s; paragraphs := paragraphs s; docId := docId s;
     docTitle := docTitle s; pageCount := pageCount s;
     pageIndex :=
       if pageIndex s =? currentPage then pageIndex s
       else JS.clamp currentPage 0 (Z.max 0 (pageCount s - 1));
     fontSize := fontSize s;
     wordsOnPage := wordsOnPage s; loadingProgress := loadingProgress s;
     isLoading := isLoading s; error := error s;
     anchorTokenRef := anchorTokenRef s;
     pendingPageRef := pendingPageRef s |}.

(** What one run of the layout effect decides: the page it settles on and
    the contents of the two ref slots afterwards. *)
Record Selection := mkSelection {
  targetPage : Z;
  pendingAfter : option Z;
  anchorAfter : option Z
}.

(** Lines 147-158 of the effect. *)
Definition selectTargetPage (flow viewport : HTMLElement) (s : AppState)
    (newPageCount : Z) : Selection :=
  let targetPage := JS.clamp (pageIndex s) 0 (newPageCount - 1) in
  match pendingPageRef s with
  | Some pending =>
      {| targetPage := JS.clamp pending 0 (newPageCount - 1);
         pendingAfter := None;
         anchorAfter := anchorTokenRef s |}
  | None =>
      match anchorTokenRef s with
      | Some anchor =>
          {| targetPage :=
               match getTokenPageIndex anchor flow viewport with
               | Some anchorPage => JS.clamp anchorPage 0 (newPageCount - 1)
               | None => targetPage
               end;
             pendingAfter := None;
             anchorAfter := None |}
      | None =>
          {| targetPage := targetPage; pendingAfter := None; anchorAfter := None |}
      end
  end.

(** The [useLayoutEffect] that runs when a layout-affecting input changed.
    The second component is the page handed to the deferred
    [scrollToPage] / [updateWordsForPage] call; [None] when the effect
    returns early because nothing is rendered. *)
Definition settle (viewportRef flowRef : option HTMLElement) (s : AppState)
    : AppState * option Z :=
  match flowRef, viewportRef, tokens s with
  | Some flow, Some viewport, _ :: _ =>
      let newPageCount := getPageCount viewport flow in
      let sel := selectTargetPage flow viewport s newPageCount in
      ({| tokens := tokens s; paragraphs := paragraphs s; docId := docId s;
          docTitle := docTitle s;
          pageCount := newPageCount;
          pageIndex := targetPage sel;
          fontSize := fontSize s; wordsOnPage := wordsOnPage s;
          loadingProgress := loadingProgress s; isLoading := isLoading s;
          error := error s;
          anchorTokenRef := anchorAfter sel;
          pendingPageRef := pendingAfter sel |},
       Some (targetPage sel))
  | _, _, _ =>
      ({| tokens := tokens s; paragraphs := paragraphs s; docId := docId s;
          docTitle := docTitle s;
          pageCount := 1;
          pageIndex := pageIndex s;
          fontSize := fontSize s;
          wordsOnPage := 0;
          loadingProgress := loadingProgress s; isLoading := isLoading s;
          error := error s;
          anchorTokenRef := anchorTokenRef s;
          pendingPageRef := pendingPageRef s |},
       None)
  end.

(** A value caught by [catch (err)]. *)
Inductive Thrown :=
  | ErrorInstance (message : string)
  | OtherValue.

(** How the promise returned by [loader()] settles. *)
Inductive Outcome :=
  | Fulfilled (result : LoadResult.t)
  | Rejected (err : Thrown).

Section Loading.

Variable JSON_parse : string -> option Storage.JsValue.
Variable localStorage : gmap string string.

Definition loadResultIntoState (s : AppState) (result : LoadResult.t) : AppState :=
  match Storage.restoreReadingState JSON_parse localStorage (LoadResult.docId result) with
  | Some restored =>
      {| tokens := LoadResult.tokens result;
         paragraphs := LoadResult.paragraphs result;
         docId := Some (LoadResult.docId result);
         docTitle := LoadResult.title result;
         pageCount := pageCount s;
         pageIndex := Storage.pageIndex restored;
         fontSize := Storage.fontSizePx restored;
         wordsOnPage := wordsOnPage s; loadingProgress := loadingProgress s;
         isLoading := isLoading s; error := error s;
         anchorTokenRef := anchorTokenRef s;
         pendingPageRef := Some (Storage.pageIndex restored) |}
  | None =>
      {| tokens := LoadResult.tokens result;
         paragraphs := LoadResult.paragraphs result;
         docId := Some (LoadResult.docId result);
         docTitle := LoadResult.title result;
         pageCount := pageCount s;
         pageIndex := 0;
         fontSize := DEFAULT_FONT_SIZE;
         wordsOnPage := wordsOnPage s; loadingProgress := loadingProgress s;
         isLoading := isLoading s; error := error s;
         anchorTokenRef := anchorTokenRef s;
         pendingPageRef := Some 0 |}
  end.

(** [handleLoad] up to its [await]: three setters, then [loader()] is
    called. *)
Definition handleLoadBegin (s : AppState) : AppState :=
  {| tokens := tokens s; paragraphs := paragraphs s; docId := docId s;
     docTitle := docTitle s; pageCount := pageCount s; pageIndex := pageIndex s;
     fontSize := fontSize s; wordsOnPage := wordsOnPage s;
     loadingProgress := 0%Q;
     isLoading := true;
     error := None;
     anchorTokenRef := anchorTokenRef s; pendingPageRef := pendingPageRef s |}.

(** [err instanceof Error ? err.message : 'Failed to load PDF']. *)
Definition errorText (err : Thrown) : string :=
  match err with
  | ErrorInstance message => message
  | OtherValue => "Failed to load PDF"
  end.

(** [handleLoad] after its [await]: the [try] continuation or the [catch]
    block, then [finally]. *)
Definition handleLoadSettled (s : AppState) (outcome : Outcome) : AppState :=
  match outcome with
  | Fulfilled result =>
      let s1 := loadResultIntoState s result in
      {| tokens := tokens s1; paragraphs := paragraphs s1; docId := docId s1;
         docTitle := docTitle s1; pageCount := pageCount s1;
         pageIndex := pageIndex s1; fontSize := fontSize s1;
         wordsOnPage := wordsOnPage s1;
         loadingProgress := 1%Q;
         isLoading := false;
         error := error s1;
         anchorTokenRef := anchorTokenRef s1; pendingPageRef := pendingPageRef s1 |}
  | Rejected err =>
      {| tokens := []; paragraphs := []; docId := None; docTitle := None;
         pageCount := pageCount s; pageIndex := pageIndex s;
         fontSize := fontSize s;
         wordsOnPage := 0;
         loadingProgress := loadingProgress s;
         isLoading := false;
         error := Some (errorText err);
         anchorTokenRef := anchorTokenRef s; pendingPageRef := pendingPageRef s |}
  end.

(** The component together with a count of the loader invocations made so
    far, and the two events of a load: [handleLoad] is called (it invokes
    its loader once before suspending at the [await]), and later the
    loader's promise settles and the rest of that [handleLoad] call runs.
    The [load] number only names the call an event belongs to; nothing in
    the component records it. *)
Record World := mkWorld { app : AppState; loaderCalls : nat }.

Inductive Event :=
  | HandleLoad (load : nat)
  | LoaderSettled (load : nat) (outcome : Outcome).

Definition step (w : World) (ev : Event) : World :=
  match ev with
  | HandleLoad _ =>
      {| app := handleLoadBegin (app w); loaderCalls := S (loaderCalls w) |}
  | LoaderSettled _ outcome =>
      {| app := handleLoadSettled (app w) outcome; loaderCalls := loaderCalls w |}
  end.

Definition run (w : World) (trace : list Event) : World :=
  List.fold_left step trace w.

End Loading.

(** The states the component can be in: the first render, followed by any
    sequence of the transitions above, against any viewport and flow. *)
Inductive Reachable (JSON_parse : string -> option Storage.JsValue)
    (localStorage : gmap string string) : AppState -> Prop :=
  | reach_initial : Reachable JSON_parse localStorage initialState
  | reach_settle viewportRef flowRef s :
      Reachable JSON_parse localStorage s ->
      Reachable JSON_parse localStorage (fst (settle viewportRef flowRef s))
  | reach_font viewportRef flowRef s value :
      Reachable JSON_parse localStorage s ->
      Reachable JSON_parse localStorage (onFontSizeChange viewportRef flowRef s value)
  | reach_resize viewportRef flowRef s :
      Reachable JSON_parse localStorage s ->
      Reachable JSON_parse localStorage (onResize viewportRef flowRef s)
  | reach_words viewportRef flowRef s page :
      Reachable JSON_parse localStorage s ->
      Reachable JSON_parse localStorage (updateWordsForPage viewportRef flowRef s page)
  | reach_scroll viewport s :
      Reachable JSON_parse localStorage s ->
      Reachable JSON_parse localStorage (onScrollFrame viewport s)
  | reach_load_begin s :
      Reachable JSON_parse localStorage s ->
      Reachable JSON_parse localStorage (handleLoadBegin s)
  | reach_load_settled s outcome :
      Reachable JSON_parse localStorage s ->
      Reachable JSON_parse localStorage
        (handleLoadSettled JSON_parse localStorage s outcome).


(** [viewport.scrollTo({ left })] carried out in full: the viewport with its
    [scrollLeft] at the requested offset. *)
Definition scrolledTo (viewport : HTMLElement) (targetLeft : Z) : HTMLElement :=
  {| clientWidth := clientWidth viewport; scrollWidth := scrollWidth viewport;
     scrollLeft := inject_Z targetLeft;
     clientRects := clientRects viewport;
     boundingClientRect := boundingClientRect viewport;
     dataIdx := dataIdx viewport;
     descendants := descendants viewport |}.

(** [{error ? <div role="alert">{error}</div> : null}]: the alert the user
    sees.  An empty string is falsy, so it shows nothing. *)
Definition alertShown (s : AppState) : option string :=
  match error s with
  | None => None
  | Some message => if String.eqb message "" then None else Some message
  end.

End App.

(** ** The specification's wording, for comparison *)

Module Spec.

(** §4.1: "Clamping is always max(0, min(value, pageCount-1))". *)
Definition clampPage (value pageCount : Z) : Z :=
  Z.max 0 (Z.min value (pageCount - 1)).

(** §4.1: the rational ceiling of [flowTotalExtent / viewportWidth]. *)
Definition ceilRatio (flowTotalExtent viewportWidth : Z) : Z :=
  Qceiling (inject_Z flowTotalExtent / inject_Z viewportWidth).

(** The page indices [0, pageCount). *)
Definition pages (pageCount : Z) : list Z :=
  List.map Z.of_nat (List.seq 0 (Z.to_nat pageCount)).

(** The sum of [f p] over the pages [p] of a list. *)
Definition sumOver (ps : list Z) (f : Z -> Z) : Z :=
  List.fold_right Z.add 0 (List.map f ps).

(** A token is rendered when the flow holds an element for it. *)
Definition isRendered (flow : HTMLElement) (token : Pdf.Token) : bool :=
  match querySelector flow (JS.toString (Pdf.idx token)) with
  | Some _ => true
  | None => false
  end.

(** §4.4: the token's computed page (§4.2) equals [pageIndex]. *)
Definition onPage (flow viewport : HTMLElement) (pageIndex : Z)
    (token : Pdf.Token) : bool :=
  match Paginate.getTokenPageIndex (Pdf.idx token) flow viewport with
  | Some page => page =? pageIndex
  | None => false
  end.

(** The token is rendered and its computed page is below [pageCount]. *)
Definition onSomePage (flow viewport : HTMLElement) (pageCount : Z)
    (token : Pdf.Token) : bool :=
  match Paginate.getTokenPageIndex (Pdf.idx token) flow viewport with
  | Some page => page <? pageCount
  | None => false
  end.

(** The elements and the tokens correspond position by position: the
    [data-idx] attributes of the elements spell the token indices, one for
    one and in order. *)
Definition paired (toks : list Pdf.Token) (els : list HTMLElement) : Prop :=
  List.map dataIdx els = List.map (fun t => Some (JS.toString (Pdf.idx t))) toks.

End Spec.

(** ** A fake layout host

    Concrete elements with fixed geometry, used to run the functions. *)

Module Sample.

Definition rectAt (x : Z) : DOMRect := {| left := inject_Z x |}.

(** A token span [<span data-idx=v>] whose left edge is at [x]. *)
Definition span (v : string) (x : Z) : HTMLElement :=
  {| clientWidth := 0; scrollWidth := 0; scrollLeft := 0%Q;
     clientRects := [rectAt x]; boundingClientRect := rectAt x;
     dataIdx := Some v; descendants := [] |}.

(** A paragraph element: no [data-idx]. *)
Definition para (x : Z) : HTMLElement :=
  {| clientWidth := 0; scrollWidth := 0; scrollLeft := 0%Q;
     clientRects := [rectAt x]; boundingClientRect := rectAt x;
     dataIdx := None; descendants := [] |}.

(** A viewport of the given client width, scrolled to the origin. *)
Definition viewportOf (width : Z) : HTMLElement :=
  {| clientWidth := width; scrollWidth := width; scrollLeft := 0%Q;
     clientRects := [rectAt 0]; boundingClientRect := rectAt 0;
     dataIdx := None; descendants := [] |}.

(** A flow of the given scroll width holding the given descendants. *)
Definition flowOf (extent : Z) (els : list HTMLElement) : HTMLElement :=
  {| clientWidth := 0; scrollWidth := extent; scrollLeft := 0%Q;
     clientRects := [rectAt 0]; boundingClientRect := rectAt 0;
     dataIdx := None; descendants := els |}.

Definition word (i : Z) : Pdf.Token := {| Pdf.idx := i; Pdf.text := "w" |}.

(** Three tokens, laid out on pages 0, 0 and 1 of an 800 wide viewport whose
    flow is 1600 wide. *)
Definition threeWords : list Pdf.Token := [word 0; word 1; word 2].

Definition threeSpans : list HTMLElement :=
  [para 0; span "0" 0; span "1" 40; span "2" 800].

Definition viewport800 : HTMLElement := viewportOf 800.

Definition flow1600 : HTMLElement := flowOf 1600 threeSpans.

(** A document on screen: three tokens, two pages, page 1 showing. *)
Definition reading : App.AppState :=
  {| App.tokens := threeWords;
     App.paragraphs := [ {| Pdf.id := "p-0-0"; Pdf.tokens := threeWords |} ];
     App.docId := Some "file:a.pdf:1:1"; App.docTitle := None;
     App.pageCount := 2; App.pageIndex := 1; App.fontSize := 18;
     App.wordsOnPage := 1; App.loadingProgress := 1%Q; App.isLoading := false;
     App.error := None; App.anchorTokenRef := None; App.pendingPageRef := None |}.

(** The same three tokens after a larger font pushed them apart: pages 0,
    1 and 2 of a flow that is now 2400 wide. *)
Definition flow2400 : HTMLElement :=
  flowOf 2400 [para 0; span "0" 0; span "1" 900; span "2" 1700].

(** The same tokens in a flow that is four pages wide. *)
Definition flow3200 : HTMLElement :=
  flowOf 3200 [para 0; span "0" 0; span "1" 900; span "2" 1700].

(** A load result with the three tokens. *)
Definition resultB : LoadResult.t :=
  {| LoadResult.docId := "url:b.pdf";
     LoadResult.tokens := threeWords;
     LoadResult.paragraphs := [ {| Pdf.id := "p-0-0"; Pdf.tokens := threeWords |} ];
     LoadResult.title := Some "B" |}.

(** A [JSON.parse] that knows one text. *)
Definition parseOnly (known : string) (v : Storage.JsValue) (raw : string)
    : option Storage.JsValue :=
  if String.eqb raw known then Some v else None.

(** A store holding one record for [resultB], with the given fields. *)
Definition storedText : string := "{pageIndex,fontSizePx}".

Definition storeFor (docId : string) : gmap string string :=
  {[ (Storage.STORAGE_PREFIX +:+ docId)%string := storedText ]}.

Definition storedRecord (page font : Z) : Storage.JsValue :=
  Storage.JsObject
    [("pageIndex"%string, Storage.JsNumber page);
     ("fontSizePx"%string, Storage.JsNumber font)].

(** Another document, one token long. *)
Definition resultA : LoadResult.t :=
  {| LoadResult.docId := "url:a.pdf";
     LoadResult.tokens := [word 0];
     LoadResult.paragraphs := [ {| Pdf.id := "p-0-0"; Pdf.tokens := [word 0] |} ];
     LoadResult.title := Some "A" |}.

(** Nothing loaded, no loader called yet. *)
Definition freshWorld : App.World :=
  {| App.app := App.initialState; App.loaderCalls := 0 |}.

(** Load A starts, load B starts, B's result arrives, then A's. *)
Definition staleTrace : list App.Event :=
  [App.HandleLoad 0; App.HandleLoad 1;
   App.LoaderSettled 1 (App.Fulfilled resultB);
   App.LoaderSettled 0 (App.Fulfilled resultA)].

(** A long document in a 790 wide viewport.  The flow's box starts 24 to
    the right of the viewport's edge (the viewport's padding) and is 19742
    wide, which is 26 columns of 742 with gaps of 18.  The first token starts
    the first column; the second starts 730 into the last column, so its
    left edge is 24 + 25 * 760 + 730 = 19754 from the viewport's edge. *)
Definition twoWords : list Pdf.Token := [word 0; word 1].

Definition viewport790 : HTMLElement := viewportOf 790.

Definition flow26Columns : HTMLElement :=
  flowOf 19742 [para 24; span "0" 24; span "1" 19754].

(** A flow whose one token element spells its index with a leading zero. *)
Definition flowLeadingZero : HTMLElement := flowOf 800 [span "07" 0].

(** Two elements marked with the same index. *)
Definition flowDuplicate : HTMLElement :=
  flowOf 1600 [span "1" 0; span "1" 900].

(** A [JSON.stringify] that writes one fixed text. *)
Definition stringifyFixed (_ : Storage.ReadingState) : string := storedText.

(** A document without text (a scanned one): no token, no paragraph. *)
Definition resultEmpty : LoadResult.t :=
  {| LoadResult.docId := "url:scan.pdf";
     LoadResult.tokens := [];
     LoadResult.paragraphs := [];
     LoadResult.title := None |}.

End Sample.

(** ** Geometry of a measurement

    The quantities [getTokenPageFromElement] computes on the way, and what
    scrolling does to the rectangles the host reports. *)

Module Layout.

(** [el.getClientRects()[0] ?? el.getBoundingClientRect()]. *)
Definition measuredRect (el : HTMLElement) : DOMRect :=
  match clientRects el with
  | r :: _ => r
  | [] => boundingClientRect el
  end.

(** [rect.left - viewportRect.left + viewport.scrollLeft]. *)
Definition relativeLeft (el viewport : HTMLElement) : Q :=
  (left (measuredRect el) - left (boundingClientRect viewport)
   + scrollLeft viewport)%Q.

Definition moveRect (d : Q) (r : DOMRect) : DOMRect :=
  {| left := (left r - d)%Q |}.

(** An element of the scrolled content after the viewport scrolled a
    further [d] to the right: its rectangles moved [d] to the left. *)
Definition scrolledElement (d : Q) (el : HTMLElement) : HTMLElement :=
  {| clientWidth := clientWidth el; scrollWidth := scrollWidth el;
     scrollLeft := scrollLeft el;
     clientRects := List.map (moveRect d) (clientRects el);
     boundingClientRect := moveRect d (boundingClientRect el);
     dataIdx := dataIdx el;
     descendants := descendants el |}.

(** The flow after that scroll: the flow and the elements in it moved. *)
Definition scrolledFlow (d : Q) (flow : HTMLElement) : HTMLElement :=
  {| clientWidth := clientWidth flow; scrollWidth := scrollWidth flow;
     scrollLeft := scrollLeft flow;
     clientRects := List.map (moveRect d) (clientRects flow);
     boundingClientRect := moveRect d (boundingClientRect flow);
     dataIdx := dataIdx flow;
     descendants := List.map (scrolledElement d) (descendants flow) |}.

(** The viewport after that scroll: it stays where it is and its
    [scrollLeft] grew by [d]. *)
Definition scrolledViewport (d : Q) (viewport : HTMLElement) : HTMLElement :=
  {| clientWidth := clientWidth viewport; scrollWidth := scrollWidth viewport;
     scrollLeft := (scrollLeft viewport + d)%Q;
     clientRects := clientRects viewport;
     boundingClientRect := boundingClientRect viewport;
     dataIdx := dataIdx viewport;
     descendants := descendants viewport |}.

(** A measurement that is a whole number of pixels, small enough for sums
    and differences of a few of them to stay below 2^53.  On such values the
    double arithmetic of the source is exact: sums and differences of
    integers are computed without rounding, and the rounded quotient by the
    integer width has the floor of the exact quotient. *)
Definition wholePixel (q : Q) : Prop :=
  exists z : Z, (q == inject_Z z)%Q /\ Z.abs z <= 2 ^ 50.

(** The three offsets that enter a token's page are whole pixels. *)
Definition exactlyMeasured (el viewport : HTMLElement) : Prop :=
  wholePixel (left (measuredRect el)) /\
  wholePixel (left (boundingClientRect viewport)) /\
  wholePixel (scrollLeft viewport).

End Layout.

(** ** The key an element is filed under *)

Module Probe.

(** The key [collectTokenElements] files an element under: none when the
    attribute is absent or empty or does not convert to a number. *)
Definition indexKey (el : HTMLElement) : option Z :=
  match dataIdx el with
  | None => None
  | Some rawIdx => if String.eqb rawIdx "" then None else JS.Number rawIdx
  end.

Definition hasKey (k : Z) (el : HTMLElement) : bool :=
  match indexKey el with
  | Some i => i =? k
  | None => false
  end.

End Probe.

(** ** pdf.ts: from text items to tokens

    The regular expression [/\s+/g] is kept abstract in its character class:
    [isSpace] says which characters [\s] matches.  A string is a sequence of
    characters; the string methods are modelled on that sequence. *)

Module PdfText.

(** The line feed pushed for [item.hasEOL] and matched by [/\n+/]. *)
Definition LF : ascii := ascii_of_nat 10.

Definition isNewline (c : ascii) : bool := Ascii.eqb c LF.

(** Put [c] in front of the first piece. *)
Definition attach (c : ascii) (pieces : list string) : list string :=
  match pieces with
  | w :: ws => String c w :: ws
  | [] => [String c EmptyString]
  end.

(** [s.split(re)] for a regular expression [re] matching the non-empty runs
    of characters of the class [sep].  [inRun] says that the character just
    before [s] belonged to a separator run.  A separator at either end gives
    an empty first or last piece, and the empty string gives one empty
    piece, as in JavaScript. *)
Fixpoint splitRuns (sep : ascii -> bool) (inRun : bool) (s : string) : list string :=
  match s with
  | EmptyString => [EmptyString]
  | String c s' =>
      if sep c then
        if inRun then splitRuns sep true s'
        else EmptyString :: splitRuns sep true s'
      else attach c (splitRuns sep false s')
  end.

Definition split (sep : ascii -> bool) (s : string) : list string :=
  splitRuns sep false s.

(** [.filter(Boolean)] on strings: the empty string is the falsy one. *)
Definition filterBoolean (l : list string) : list string :=
  List.filter (fun s => negb (String.eqb s "")) l.

(** [chunks.join(sep)]. *)
Fixpoint join (sep : string) (l : list string) : string :=
  match l with
  | [] => EmptyString
  | [x] => x
  | x :: rest => (x +:+ sep +:+ join sep rest)%string
  end.

Section Text.

(** The characters [\s] matches. *)
Variable isSpace : ascii -> bool.

(** [s.replace(/\s+/g, ' ')]: every run becomes one space. *)
Fixpoint replaceRuns (inRun : bool) (s : string) : string :=
  match s with
  | EmptyString => EmptyString
  | String c s' =>
      if isSpace c then
        if inRun then replaceRuns true s'
        else String " " (replaceRuns true s')
      else String c (replaceRuns false s')
  end.

Definition replaceSpaces (s : string) : string := replaceRuns false s.

Fixpoint trimStart (s : string) : string :=
  match s with
  | EmptyString => EmptyString
  | String c s' => if isSpace c then trimStart s' else s
  end.

Fixpoint trimEnd (s : string) : string :=
  match s with
  | EmptyString => EmptyString
  | String c s' =>
      match trimEnd s' with
      | EmptyString => if isSpace c then EmptyString else String c EmptyString
      | r => String c r
      end
  end.

(** [s.trim()]: it strips the same characters [\s] matches. *)
Definition trim (s : string) : string := trimEnd (trimStart s).

(** [s.replace(SPACE_REGEX, ' ').trim()]. *)
Definition normalizeSpaces (s : string) : string := trim (replaceSpaces s).

(** [paragraph.split(SPACE_REGEX).filter(Boolean)]. *)
Definition words (s : string) : list string :=
  filterBoolean (split isSpace s).

(** A text item of a page.  [str] is [None] when the item is missing or
    its [str] is not a string (marked content); [hasEOL] is [false] when the
    property is absent. *)
Record TextItem := mkTextItem { str : option string; hasEOL : bool }.

(** What one item adds to [chunks]. *)
Definition itemChunks (item : TextItem) : list string :=
  match str item with
  | None => []
  | Some text =>
      let clean := normalizeSpaces text in
      (if String.eqb clean "" then [] else [clean])
      ++ (if hasEOL item then [String LF EmptyString] else [])
  end.

Definition normalizeTextContent (items : list TextItem) : list string :=
  let chunks := List.fold_left (fun chunks item => chunks ++ itemChunks item) items [] in
  let joined := join " " chunks in
  filterBoolean (List.map normalizeSpaces (split isNewline joined)).

(** [words.map((word) => ({ idx: idx++, text: word }))]. *)
Fixpoint numberWords (idx : Z) (ws : list string) : list Pdf.Token :=
  match ws with
  | [] => []
  | word :: rest =>
      {| Pdf.idx := idx; Pdf.text := word |} :: numberWords (idx + 1) rest
  end.

Record Built := mkBuilt {
  paragraphs : list Pdf.Paragraph;
  tokens : list Pdf.Token;
  nextIndex : Z
}.

(** The [forEach] of [buildParagraphs], from paragraph number
    [paragraphIndex] on. *)
Fixpoint buildLoop (startIndex : Z) (paragraphIndex : Z) (acc : Built)
    (paragraphStrings : list string) : Built :=
  match paragraphStrings with
  | [] => acc
  | paragraph :: rest =>
      let ws := words paragraph in
      let acc' :=
        match ws with
        | [] => acc
        | _ :: _ =>
            let paragraphTokens := numberWords (nextIndex acc) ws in
            {| paragraphs :=
                 paragraphs acc ++
                 [ {| Pdf.id := ("p-" +:+ JS.toString paragraphIndex +:+ "-"
                                 +:+ JS.toString startIndex)%string;
                      Pdf.tokens := paragraphTokens |} ];
               tokens := tokens acc ++ paragraphTokens;
               nextIndex := nextIndex acc + Z.of_nat (length ws) |}
        end in
      buildLoop startIndex (paragraphIndex + 1) acc' rest
  end.

Definition buildParagraphs (paragraphStrings : list string) (startIndex : Z) : Built :=
  buildLoop startIndex 0
    {| paragraphs := []; tokens := []; nextIndex := startIndex |}
    paragraphStrings.

(** The page loop of [loadPdf], given the text items of each page. *)
Definition loadStep (acc : Built) (items : list TextItem) : Built :=
  let normalizedParagraphs := normalizeTextContent items in
  let built := buildParagraphs normalizedParagraphs (nextIndex acc) in
  {| paragraphs := paragraphs acc ++ paragraphs built;
     tokens := tokens acc ++ tokens built;
     nextIndex := nextIndex built |}.

(** [loadPdf] when the document opens and every page gives its text:
    [pages] are the items of pages 1, 2, ..., and [title] is
    [metadata?.info?.Title]. *)
Definition loadPdf (pages : list (list TextItem)) (kind key : string)
    (title : option string) : LoadResult.t :=
  let docId := (kind +:+ ":" +:+ key)%string in
  let all := List.fold_left loadStep pages
               {| paragraphs := []; tokens := []; nextIndex := 0 |} in
  {| LoadResult.docId := docId;
     LoadResult.tokens := tokens all;
     LoadResult.paragraphs := paragraphs all;
     LoadResult.title := title |}.

(** The words a page contributes. *)
Definition pageWords (items : list TextItem) : list string :=
  List.flat_map words (normalizeTextContent items).

(** The three properties of a [File] the key is made of. *)
Record File := mkFile { name : string; size : Z; lastModified : Z }.

Definition loadPdfFromFile (file : File) (pages : list (list TextItem))
    (title : option string) : LoadResult.t :=
  let key := (name file +:+ ":" +:+ JS.toString (size file) +:+ ":"
              +:+ JS.toString (lastModified file))%string in
  loadPdf pages "file" key title.

(** [loadPdfFromUrl] once [fetch] has answered: a response that is not
    [ok] is thrown as an [Error] naming the status. *)
Definition loadPdfFromUrl (url : string) (ok : bool) (status : Z)
    (pages : list (list TextItem)) (title : option string) : App.Outcome :=
  if ok then App.Fulfilled (loadPdf pages "url" url title)
  else App.Rejected
         (App.ErrorInstance
            ("Failed to load PDF from URL (" +:+ JS.toString status +:+ ")")%string).

End Text.

(** A string has no character of the class. *)
Fixpoint noneOf (p : ascii -> bool) (s : string) : bool :=
  match s with
  | EmptyString => true
  | String c s' => negb (p c) && noneOf p s'
  end.

(** The class holding just the character [c0]. *)
Definition isChar (c0 : ascii) (c : ascii) : bool := Ascii.eqb c c0.

(** The template [`p-${paragraphIndex}-${startIndex}`]. *)
Definition paragraphId (paragraphIndex startIndex : Z) : string :=
  ("p-" +:+ JS.toString paragraphIndex +:+ "-" +:+ JS.toString startIndex)%string.

(** The ASCII white space, for running the functions. *)
Definition asciiSpace (c : ascii) : bool :=
  let n := nat_of_ascii c in
  ((9 <=? n)%nat && (n <=? 13)%nat) || (n =? 32)%nat.

End PdfText.

(** ** Sample text items *)

Module SampleText.

(** Two pages of text items: a line break splits the first page into two
    paragraphs; the second item of page two is marked content without text. *)
Definition pageOne : list PdfText.TextItem :=
  [ PdfText.mkTextItem (Some " Hello   world") false;
    PdfText.mkTextItem (Some "again ") true;
    PdfText.mkTextItem (Some "next") false ].

Definition pageTwo : list PdfText.TextItem :=
  [ PdfText.mkTextItem (Some "  ") true;
    PdfText.mkTextItem None true;
    PdfText.mkTextItem (Some "last one") false ].

(** Two files of the same name and size, saved at different times. *)
Definition fileOld : PdfText.File :=
  {| PdfText.name := "notes:v2.pdf"; PdfText.size := 1024; PdfText.lastModified := 1700 |}.

Definition fileNew : PdfText.File :=
  {| PdfText.name := "notes:v2.pdf"; PdfText.size := 1024; PdfText.lastModified := 1800 |}.

End SampleText.

(** ** Theorems *)

Lemma Qceiling_div_pos (a b : Z) :
  0 < b -> Qceiling (inject_Z a / inject_Z b) = (a + b - 1) / b.
Proof.
  intros Hb.
  unfold Qceiling.
  assert (E : (- (inject_Z a / inject_Z b) == inject_Z (- a) / inject_Z b)%Q).
  { rewrite inject_Z_opp. field. intros H.
    apply (inject_Z_injective b 0) in H. lia. }
  rewrite E, <- Zdiv_Qdiv.
  assert (a + b - 1 = - (- a) + b - 1) as -> by lia.
  generalize (- a). intros c.
  pose proof (Z.div_mod c b ltac:(lia)) as Hc.
  pose proof (Z.mod_pos_bound c b Hb) as Hm.
  apply Z.div_unique with (r := b - 1 - c mod b); [lia|].
  nia.
Qed.

(** *** The page count *)

Lemma getPageCount_closed_form viewport flow :
  Paginate.getPageCount viewport flow =
  let m := Z.max 1 (clientWidth viewport) in
  Z.max 1 ((scrollWidth flow + m - 1) / m).
Proof.
  unfold Paginate.getPageCount. cbv zeta.
  rewrite Qceiling_div_pos by lia. reflexivity.
Qed.

Lemma getPageCount_ge_1 viewport flow : 1 <= Paginate.getPageCount viewport flow.
Proof. unfold Paginate.getPageCount. lia. Qed.

(** C1.  For non-negative extents, [getPageCount] is
    max(1, ceil(extent / max(1, width))); it is at least 1; when both extents
    are positive it is ceil(extent / width), that is, the one integer [n]
    with (n-1) * width < extent <= n * width; and it depends on the viewport
    and the flow through [clientWidth] and [scrollWidth] only. *)
Theorem getPageCount_contract (viewport flow : HTMLElement) :
  0 <= clientWidth viewport ->
  0 <= scrollWidth flow ->
  let w := clientWidth viewport in
  let extent := scrollWidth flow in
  let n := Paginate.getPageCount viewport flow in
  n = Z.max 1 (Spec.ceilRatio extent (Z.max 1 w)) /\
  1 <= n /\
  (0 < w -> 0 < extent ->
     n = Spec.ceilRatio extent w /\ (n - 1) * w < extent <= n * w) /\
  (forall viewport' flow',
     clientWidth viewport' = w -> scrollWidth flow' = extent ->
     Paginate.getPageCount viewport' flow' = n).
Proof.
  intros Hw He w extent n. subst w extent n.
  split; [reflexivity|].
  split; [apply getPageCount_ge_1|].
  split.
  - intros Hw' He'.
    rewrite getPageCount_closed_form. cbv zeta. unfold Spec.ceilRatio.
    rewrite Qceiling_div_pos by lia.
    rewrite (Z.max_r 1 (clientWidth viewport)) by lia.
    set (w := clientWidth viewport) in *. set (e := scrollWidth flow) in *.
    pose proof (Z.div_mod (e + w - 1) w ltac:(lia)) as Hd.
    pose proof (Z.mod_pos_bound (e + w - 1) w Hw') as Hm.
    assert (1 <= (e + w - 1) / w) by (apply Z.div_le_lower_bound; lia).
    rewrite Z.max_r by lia. split; [reflexivity|]. nia.
  - intros v' f' Hv Hf. unfold Paginate.getPageCount. now rewrite Hv, Hf.
Qed.

(** Scenario A of the specification: extent 2400, width 800, three pages. *)
Lemma getPageCount_contract_witness :
  let viewport := Sample.viewportOf 800 in
  let flow := Sample.flowOf 2400 [] in
  Paginate.getPageCount viewport flow = 3 /\
  (3 - 1) * 800 < 2400 <= 3 * 800.
Proof.
  intros viewport flow.
  destruct (getPageCount_contract viewport flow) as (_ & _ & H & _);
    [simpl; lia | simpl; lia |].
  destruct H as [_ H]; [simpl; lia | simpl; lia |].
  split; [reflexivity | exact H].
Defined.

(** Scenario B: an empty flow still has one page. *)
Example getPageCount_empty_flow :
  Paginate.getPageCount (Sample.viewportOf 800) (Sample.flowOf 0 []) = 1.
Proof. reflexivity. Qed.

(** *** Anchor round trip *)

(** C3.  If capturing the anchor for page [p] over a layout gives token
    index [t], then resolving [t] against the same layout gives [p]. *)
Theorem anchor_round_trip (toks : list Pdf.Token) (flow viewport : HTMLElement)
    (p t : Z) :
  Paginate.findAnchorTokenIndex toks flow viewport p = Some t ->
  Paginate.getTokenPageIndex t flow viewport = Some p.
Proof.
  induction toks as [|token rest IH]; simpl; [discriminate|].
  destruct (querySelector flow (JS.toString (Pdf.idx token))) as [el|] eqn:Hq;
    [|exact IH].
  destruct (Z.eqb_spec (Paginate.getTokenPageFromElement el viewport) p) as [Hp|Hp];
    [|exact IH].
  intros [= <-]. unfold Paginate.getTokenPageIndex. rewrite Hq. now rewrite Hp.
Qed.

Lemma anchor_round_trip_witness :
  Paginate.findAnchorTokenIndex Sample.threeWords Sample.flow1600
    Sample.viewport800 1 = Some 2 /\
  Paginate.getTokenPageIndex 2 Sample.flow1600 Sample.viewport800 = Some 1.
Proof.
  split; [reflexivity|].
  apply (anchor_round_trip Sample.threeWords Sample.flow1600 Sample.viewport800 1 2).
  reflexivity.
Defined.

(** The anchor is the first token of the list, in reading order, that is
    rendered on the page; there is none exactly when no token of the list is
    rendered on it. *)
Lemma findAnchor_first (toks : list Pdf.Token) (flow viewport : HTMLElement)
    (p t : Z) :
  Paginate.findAnchorTokenIndex toks flow viewport p = Some t ->
  exists before token after,
    toks = before ++ token :: after /\
    Pdf.idx token = t /\
    Spec.onPage flow viewport p token = true /\
    (forall earlier, In earlier before ->
       Spec.onPage flow viewport p earlier = false).
Proof.
  induction toks as [|token rest IH]; simpl; [discriminate|].
  unfold Spec.onPage, Paginate.getTokenPageIndex in *.
  destruct (querySelector flow (JS.toString (Pdf.idx token))) as [el|] eqn:Hq.
  - destruct (Paginate.getTokenPageFromElement el viewport =? p) eqn:Hp.
    + intros [= <-]. exists [], token, rest.
      repeat split; [now rewrite Hq|intros ? []].
    + intros H. destruct (IH H) as (before & tk & after & -> & Ht & Hon & Hb).
      exists (token :: before), tk, after. repeat split; try assumption.
      intros earlier [<-|Hin]; [now rewrite Hq|now apply Hb].
  - intros H. destruct (IH H) as (before & tk & after & -> & Ht & Hon & Hb).
    exists (token :: before), tk, after. repeat split; try assumption.
    intros earlier [<-|Hin]; [now rewrite Hq|now apply Hb].
Qed.

Lemma findAnchor_none (toks : list Pdf.Token) (flow viewport : HTMLElement) (p : Z) :
  Paginate.findAnchorTokenIndex toks flow viewport p = None <->
  (forall token, In token toks -> Spec.onPage flow viewport p token = false).
Proof.
  induction toks as [|token rest IH]; simpl.
  - split; [intros _ ? []|reflexivity].
  - unfold Spec.onPage, Paginate.getTokenPageIndex in *.
    destruct (querySelector flow (JS.toString (Pdf.idx token))) as [el|] eqn:Hq.
    + destruct (Paginate.getTokenPageFromElement el viewport =? p) eqn:Hp.
      * split; [discriminate|]. intros H.
        specialize (H token (or_introl eq_refl)). rewrite Hq in H. congruence.
      * rewrite IH. split.
        -- intros H tk [<-|Hin]; [now rewrite Hq|now apply H].
        -- intros H tk Hin. apply H. now right.
    + rewrite IH. split.
      * intros H tk [<-|Hin]; [now rewrite Hq|now apply H].
      * intros H tk Hin. apply H. now right.
Qed.

(** *** Number and template literals *)

Lemma toString_nonempty (z : Z) : JS.toString z <> EmptyString.
Proof.
  unfold JS.toString.
  destruct z as [|p|p]; simpl; [discriminate| |discriminate].
  unfold NilZero.string_of_uint.
  pose proof (Unsigned.to_uint_nonnil p) as Hp.
  destruct (Pos.to_uint p); simpl; congruence.
Qed.

Lemma Number_toString (z : Z) : JS.Number (JS.toString z) = Some z.
Proof.
  pose proof (toString_nonempty z) as Hne.
  assert (H : NilZero.int_of_string (JS.toString z) = Some (Z.to_int z)).
  { unfold JS.toString. apply NilZero.isi.
    - destruct z as [|p|p]; simpl; try discriminate.
      intros [= E]. now apply (Unsigned.to_uint_nonnil p).
    - destruct z as [|p|p]; simpl; try discriminate.
      intros [= E]. now apply (Unsigned.to_uint_nonnil p). }
  unfold JS.Number. destruct (JS.toString z) eqn:E; [congruence|].
  rewrite H. simpl. now rewrite DecimalZ.of_to.
Qed.

Lemma toString_inj (a b : Z) : JS.toString a = JS.toString b -> a = b.
Proof.
  intros E. pose proof (Number_toString a) as Ha.
  rewrite E, Number_toString in Ha. congruence.
Qed.

(** JavaScript reads a numeral with leading zeros as the same number: the
    attribute value is not determined by the index it converts to. *)
Example Number_leading_zero : JS.Number "07" = JS.Number "7".
Proof. reflexivity. Qed.

(** *** Choosing the page at a settle *)

Lemma clamp_clampPage (value pageCount : Z) :
  1 <= pageCount -> JS.clamp value 0 (pageCount - 1) = Spec.clampPage value pageCount.
Proof. unfold JS.clamp, Spec.clampPage. lia. Qed.

Lemma clampPage_range (value pageCount : Z) :
  1 <= pageCount -> 0 <= Spec.clampPage value pageCount <= pageCount - 1.
Proof. unfold Spec.clampPage. lia. Qed.

(** A measurement miss is a [None], and it happens exactly when no
    descendant of the flow carries the token's numeral. *)
Lemma getTokenPageIndex_miss (tokenIdx : Z) (flow viewport : HTMLElement) :
  Paginate.getTokenPageIndex tokenIdx flow viewport = None <->
  (forall el, In el (descendants flow) -> dataIdx el <> Some (JS.toString tokenIdx)).
Proof.
  unfold Paginate.getTokenPageIndex, querySelector. split.
  - destruct (List.find _ _) eqn:Hf; [discriminate|]. intros _ el Hin Hattr.
    pose proof (find_none _ _ Hf el Hin) as Hm.
    unfold matchesDataIdx in Hm. rewrite Hattr, String.eqb_refl in Hm. discriminate.
  - intros Hall. destruct (List.find _ _) eqn:Hf; [|reflexivity].
    apply find_some in Hf as [Hin Hm]. exfalso. apply (Hall _ Hin).
    unfold matchesDataIdx in Hm. destruct (dataIdx h); [|discriminate].
    apply String.eqb_eq in Hm. now subst.
Qed.

Lemma settle_rendered (viewport flow : HTMLElement) (s : App.AppState) :
  App.tokens s <> [] ->
  App.settle (Some viewport) (Some flow) s =
  (let n := Paginate.getPageCount viewport flow in
   let sel := App.selectTargetPage flow viewport s n in
   ({| App.tokens := App.tokens s; App.paragraphs := App.paragraphs s;
       App.docId := App.docId s; App.docTitle := App.docTitle s;
       App.pageCount := n; App.pageIndex := App.targetPage sel;
       App.fontSize := App.fontSize s; App.wordsOnPage := App.wordsOnPage s;
       App.loadingProgress := App.loadingProgress s;
       App.isLoading := App.isLoading s; App.error := App.error s;
       App.anchorTokenRef := App.anchorAfter sel;
       App.pendingPageRef := App.pendingAfter sel |},
    Some (App.targetPage sel))).
Proof.
  intros Hne. unfold App.settle. destruct (App.tokens s); [congruence|reflexivity].
Qed.

(** The rendered branch of the settle.  With a document rendered, the settle
    always yields a target page
    (no failure path), stores it as the page index, and chooses it by
    precedence: a pending page index, clamped; else the page the anchor token
    resolves to under the new layout, clamped, or the previous page index,
    clamped, when the token is not found; else the previous page index,
    clamped to the new page count. *)
Theorem settle_precedence (viewport flow : HTMLElement) (s : App.AppState) :
  App.tokens s <> [] ->
  let n := Paginate.getPageCount viewport flow in
  let previous := Spec.clampPage (App.pageIndex s) n in
  exists s' t,
    App.settle (Some viewport) (Some flow) s = (s', Some t) /\
    App.pageIndex s' = t /\
    App.pageCount s' = n /\
    (forall pending,
       App.pendingPageRef s = Some pending -> t = Spec.clampPage pending n) /\
    (forall anchor,
       App.pendingPageRef s = None -> App.anchorTokenRef s = Some anchor ->
       (forall page,
          Paginate.getTokenPageIndex anchor flow viewport = Some page ->
          t = Spec.clampPage page n) /\
       ((forall el, In el (descendants flow) ->
           dataIdx el <> Some (JS.toString anchor)) ->
        t = previous)) /\
    (App.pendingPageRef s = None -> App.anchorTokenRef s = None -> t = previous).
Proof.
  intros Hne n previous.
  pose proof (getPageCount_ge_1 viewport flow) as Hn. fold n in Hn.
  rewrite (settle_rendered viewport flow s Hne). cbv zeta. fold n.
  eexists _, _. split; [reflexivity|]. simpl.
  split; [reflexivity|]. split; [reflexivity|].
  unfold App.selectTargetPage. subst previous.
  split; [|split].
  - intros pending ->. simpl. now apply clamp_clampPage.
  - intros anchor Hpending Hanchor. rewrite Hpending, Hanchor. simpl. split.
    + intros page ->. now apply clamp_clampPage.
    + intros Hmiss.
      apply (proj2 (getTokenPageIndex_miss anchor flow viewport)) in Hmiss.
      rewrite Hmiss. now apply clamp_clampPage.
  - intros -> ->. simpl. now apply clamp_clampPage.
Qed.

(** Scenario F: a font change while page 1 is showing; under the new layout
    there are three pages and the captured anchor token sits on page 2, where
    the settle lands. *)
Lemma settle_precedence_witness :
  let s := App.onFontSizeChange (Some Sample.viewport800) (Some Sample.flow1600)
             Sample.reading 22 in
  App.tokens s <> [] /\
  App.anchorTokenRef s = Some 2 /\
  exists s',
    App.settle (Some Sample.viewport800) (Some Sample.flow2400) s = (s', Some 2) /\
    App.pageIndex s' = 2 /\ App.pageCount s' = 3.
Proof.
  intros s.
  assert (Hne : App.tokens s <> []) by discriminate.
  split; [exact Hne|]. split; [reflexivity|].
  destruct (settle_precedence Sample.viewport800 Sample.flow2400 s Hne)
    as (s' & t & Hs & Hidx & Hcount & _ & Hanchor & _).
  destruct (Hanchor 2 eq_refl eq_refl) as [Hpage _].
  specialize (Hpage 2 eq_refl).
  assert (Ht : t = 2) by (rewrite Hpage; reflexivity).
  rewrite Ht in Hs, Hidx. exists s'. split; [exact Hs|]. split; [exact Hidx|].
  rewrite Hcount. reflexivity.
Defined.

(** C2 as the specification words it, "whenever a layout-affecting change
    settles, a pending page index is used, clamped", does not hold.  A
    document without text is loaded, its stored page index 7 becomes
    pending, and the settle returns early because there is no token: one
    page, page index still 7, the pending index still in its slot, and no
    target page. *)
Lemma pending_ignored_without_tokens :
  let s := App.handleLoadSettled
             (Sample.parseOnly Sample.storedText (Sample.storedRecord 7 18))
             (Sample.storeFor "url:scan.pdf") App.initialState
             (App.Fulfilled Sample.resultEmpty) in
  let viewportRef := Some Sample.viewport800 in
  let flowRef := Some (Sample.flowOf 0 []) in
  let s' := fst (App.settle viewportRef flowRef s) in
  App.pendingPageRef s = Some 7 /\
  snd (App.settle viewportRef flowRef s) = None /\
  App.pageCount s' = 1 /\
  App.pageIndex s' = 7 /\
  App.pendingPageRef s' = Some 7 /\
  ~ (forall viewportRef flowRef s pending,
       App.pendingPageRef s = Some pending ->
       App.pageIndex (fst (App.settle viewportRef flowRef s)) =
       Spec.clampPage pending (App.pageCount (fst (App.settle viewportRef flowRef s)))).
Proof.
  intros s viewportRef flowRef s'.
  repeat (split; [reflexivity|]).
  intros Hall. specialize (Hall viewportRef flowRef s 7 eq_refl).
  discriminate Hall.
Qed.

(** C2, as the code has it.  A settle that finds a document rendered (both
    elements exist and there is at least one token) always yields a target
    page, stores it as the page index, and chooses it by precedence: a
    pending page index, clamped; else the page the anchor token resolves to
    under the new layout, clamped, or the previous page index, clamped, when
    the token is not found; else the previous page index, clamped to the new
    page count.  A settle that finds nothing rendered returns early: one
    page, no words, no target page, and the page index, the pending index and
    the anchor stay as they were.  Neither case has a failure path. *)
Theorem settle_selection (viewportRef flowRef : option HTMLElement)
    (s : App.AppState) :
  (forall viewport flow,
     viewportRef = Some viewport -> flowRef = Some flow -> App.tokens s <> [] ->
     let n := Paginate.getPageCount viewport flow in
     let previous := Spec.clampPage (App.pageIndex s) n in
     exists s' t,
       App.settle viewportRef flowRef s = (s', Some t) /\
       App.pageIndex s' = t /\
       App.pageCount s' = n /\
       (forall pending,
          App.pendingPageRef s = Some pending -> t = Spec.clampPage pending n) /\
       (forall anchor,
          App.pendingPageRef s = None -> App.anchorTokenRef s = Some anchor ->
          (forall page,
             Paginate.getTokenPageIndex anchor flow viewport = Some page ->
             t = Spec.clampPage page n) /\
          ((forall el, In el (descendants flow) ->
              dataIdx el <> Some (JS.toString anchor)) ->
           t = previous)) /\
       (App.pendingPageRef s = None -> App.anchorTokenRef s = None ->
        t = previous)) /\
  (viewportRef = None \/ flowRef = None \/ App.tokens s = [] ->
   exists s',
     App.settle viewportRef flowRef s = (s', None) /\
     App.pageCount s' = 1 /\
     App.wordsOnPage s' = 0 /\
     App.tokens s' = App.tokens s /\
     App.pageIndex s' = App.pageIndex s /\
     App.pendingPageRef s' = App.pendingPageRef s /\
     App.anchorTokenRef s' = App.anchorTokenRef s).
Proof.
  split.
  - intros viewport flow -> -> Hne. now apply settle_precedence.
  - intros Hnone. unfold App.settle.
    destruct flowRef as [flow|], viewportRef as [viewport|],
      (App.tokens s) as [|tok toks] eqn:Htok;
      try (eexists; repeat split; simpl; exact Htok).
    destruct Hnone as [H|[H|H]]; discriminate.
Qed.

(** Scenario F on the rendered side, and the same state settling while the
    flow element is missing. *)
Lemma settle_selection_witness :
  let s := App.onFontSizeChange (Some Sample.viewport800) (Some Sample.flow1600)
             Sample.reading 22 in
  (exists s',
     App.settle (Some Sample.viewport800) (Some Sample.flow2400) s = (s', Some 2) /\
     App.pageIndex s' = 2 /\ App.pageCount s' = 3) /\
  (exists s',
     App.settle (Some Sample.viewport800) None s = (s', None) /\
     App.pageCount s' = 1 /\ App.pageIndex s' = 1 /\
     App.anchorTokenRef s' = Some 2).
Proof.
  intros s. split.
  - destruct (settle_selection (Some Sample.viewport800) (Some Sample.flow2400) s)
      as [Hrendered _].
    destruct (Hrendered Sample.viewport800 Sample.flow2400 eq_refl eq_refl
                ltac:(discriminate))
      as (s' & t & Hs & Hidx & Hcount & _ & Hanchor & _).
    destruct (Hanchor 2 eq_refl eq_refl) as [Hpage _].
    specialize (Hpage 2 eq_refl).
    assert (Ht : t = 2) by (rewrite Hpage; reflexivity).
    rewrite Ht in Hs, Hidx. exists s'. split; [exact Hs|]. split; [exact Hidx|].
    rewrite Hcount. reflexivity.
  - destruct (settle_selection (Some Sample.viewport800) None s) as [_ Hearly].
    destruct (Hearly (or_intror (or_introl eq_refl)))
      as (s' & Hs & Hcount & _ & _ & Hidx & _ & Hanchor).
    exists s'. split; [exact Hs|]. split; [exact Hcount|].
    split; [rewrite Hidx; reflexivity|rewrite Hanchor; reflexivity].
Defined.

(** The page count never drops below 1 in any state the component reaches. *)
Lemma settle_pageCount_ge_1 viewportRef flowRef (s : App.AppState) :
  1 <= App.pageCount (fst (App.settle viewportRef flowRef s)).
Proof.
  unfold App.settle.
  destruct flowRef as [flow|], viewportRef as [viewport|], (App.tokens s);
    simpl; try lia.
  apply getPageCount_ge_1.
Qed.

Lemma handleLoadSettled_pageCount parse store (s : App.AppState) outcome :
  App.pageCount (App.handleLoadSettled parse store s outcome) = App.pageCount s.
Proof.
  destruct outcome as [result|err]; simpl; [|reflexivity].
  unfold App.loadResultIntoState.
  now destruct (Storage.restoreReadingState _ _ _).
Qed.

(** The page count is at least 1 in every state the component reaches, which
    is what the range statement about navigation needs. *)
Lemma reachable_pageCount_ge_1 parse store (s : App.AppState) :
  App.Reachable parse store s -> 1 <= App.pageCount s.
Proof.
  induction 1; simpl; try assumption.
  - reflexivity.
  - apply settle_pageCount_ge_1.
  - now rewrite handleLoadSettled_pageCount.
Qed.

(** Range of the page a settle selects.  With a document rendered, it lies in
    [0, pageCount-1] for the page count it has just computed, and it is
    max(0, min(value, pageCount-1)) of the value asked for (pending index,
    resolved anchor page, or carried-over index).  A navigation to [index]
    scrolls to the page max(0, min(index, pageCount-1)), which lies in the
    same range. *)
Theorem page_index_in_range (viewport flow : HTMLElement) (s : App.AppState)
    (index : Z) :
  App.tokens s <> [] ->
  1 <= App.pageCount s ->
  let s' := fst (App.settle (Some viewport) (Some flow) s) in
  let requested :=
    match App.pendingPageRef s, App.anchorTokenRef s with
    | Some pending, _ => pending
    | None, Some anchor =>
        match Paginate.getTokenPageIndex anchor flow viewport with
        | Some page => page
        | None => App.pageIndex s
        end
    | None, None => App.pageIndex s
    end in
  (0 <= App.pageIndex s' <= App.pageCount s' - 1 /\
   App.pageIndex s' = Spec.clampPage requested (App.pageCount s') /\
   snd (App.settle (Some viewport) (Some flow) s) = Some (App.pageIndex s')) /\
  (let page := Spec.clampPage index (App.pageCount s) in
   0 <= page <= App.pageCount s - 1 /\
   App.scrollToPage (Some viewport) s index = Some (page * clientWidth viewport)).
Proof.
  intros Hne Hcount s' requested.
  pose proof (getPageCount_ge_1 viewport flow) as Hn.
  assert (Hpage : App.pageIndex s' =
                  Spec.clampPage requested (Paginate.getPageCount viewport flow)).
  { subst s' requested. rewrite (settle_rendered viewport flow s Hne).
    cbv zeta. simpl. unfold App.selectTargetPage.
    destruct (App.pendingPageRef s) as [pending|]; simpl;
      [now apply clamp_clampPage|].
    destruct (App.anchorTokenRef s) as [anchor|]; simpl;
      [|now apply clamp_clampPage].
    destruct (Paginate.getTokenPageIndex anchor flow viewport); simpl;
      now apply clamp_clampPage. }
  assert (Hc : App.pageCount s' = Paginate.getPageCount viewport flow).
  { subst s'. now rewrite (settle_rendered viewport flow s Hne). }
  split.
  - rewrite Hc, Hpage. split; [now apply clampPage_range|].
    split; [reflexivity|].
    rewrite <- Hpage. subst s'.
    now rewrite (settle_rendered viewport flow s Hne).
  - cbv zeta. split; [now apply clampPage_range|].
    unfold App.scrollToPage. rewrite Z.max_r by lia.
    now rewrite clamp_clampPage.
Qed.

(** Scenario D: a restored page index 7 with four pages settles on page 3.
    Scenario C: asking for page 5 of 3 scrolls to page 2. *)
Lemma page_index_in_range_witness :
  let s := App.handleLoadSettled
             (Sample.parseOnly Sample.storedText (Sample.storedRecord 7 18))
             (Sample.storeFor "url:b.pdf") App.initialState
             (App.Fulfilled Sample.resultB) in
  App.pendingPageRef s = Some 7 /\
  App.pageIndex (fst (App.settle (Some Sample.viewport800) (Some Sample.flow3200) s)) = 3 /\
  App.pageCount (fst (App.settle (Some Sample.viewport800) (Some Sample.flow3200) s)) = 4 /\
  App.scrollToPage (Some Sample.viewport800)
    (fst (App.settle (Some Sample.viewport800) (Some Sample.flow2400) s)) 5
  = Some (2 * 800).
Proof.
  intros s. split; [reflexivity|].
  assert (Hne : App.tokens s <> []) by discriminate.
  destruct (page_index_in_range Sample.viewport800 Sample.flow3200 s 0 Hne)
    as [(_ & Hpage & _) _]; [vm_compute; discriminate|].
  split; [rewrite Hpage; reflexivity|]. split; [reflexivity|].
  set (s2 := fst (App.settle (Some Sample.viewport800) (Some Sample.flow2400) s)).
  assert (Hne2 : App.tokens s2 <> []) by discriminate.
  destruct (page_index_in_range Sample.viewport800 Sample.flow2400 s2 5 Hne2)
    as [_ [_ Hscroll]]; [vm_compute; discriminate|].
  rewrite Hscroll. reflexivity.
Defined.

(** C7 as the specification words it, "at every settle the page index lies
    in [0, pageCount-1]", does not hold.  A document is loaded and settles on
    two pages, the reader scrolls to page 1, a second load fails, and the
    settle that follows finds no token: it sets the page count to 1 and
    leaves the page index at 1.  The state is one the component reaches. *)
Lemma page_index_out_of_range_after_failed_load :
  let viewportRef := Some Sample.viewport800 in
  let flowRef := Some Sample.flow1600 in
  let s1 := App.handleLoadSettled (fun _ => None) ∅ App.initialState
              (App.Fulfilled Sample.resultB) in
  let s2 := fst (App.settle viewportRef flowRef s1) in
  let s3 := App.onScrollFrame (App.scrolledTo Sample.viewport800 800) s2 in
  let s4 := fst (App.settle viewportRef flowRef s3) in
  let s5 := App.handleLoadSettled (fun _ => None) ∅ s4
              (App.Rejected (App.ErrorInstance "Invalid PDF structure.")) in
  let s6 := fst (App.settle viewportRef (Some (Sample.flowOf 0 [])) s5) in
  App.Reachable (fun _ => None) ∅ s6 /\
  App.pageIndex s4 = 1 /\ App.pageCount s4 = 2 /\
  App.pageIndex s6 = 1 /\ App.pageCount s6 = 1 /\
  ~ (0 <= App.pageIndex s6 <= App.pageCount s6 - 1).
Proof.
  intros viewportRef flowRef s1 s2 s3 s4 s5 s6.
  split.
  - subst s6 s5 s4 s3 s2 s1.
    apply App.reach_settle, App.reach_load_settled, App.reach_settle,
      App.reach_scroll, App.reach_settle, App.reach_load_settled,
      App.reach_initial.
  - repeat (split; [reflexivity|]).
    vm_compute. intros [_ H]. apply H. reflexivity.
Qed.

(** C7, as the code has it.  A settle that finds a document rendered selects
    a page in [0, pageCount-1] for the page count it has just computed, and
    that page is max(0, min(value, pageCount-1)) of the value asked for
    (pending index, resolved anchor page, or carried-over index).  A
    navigation to [index] scrolls to the page max(0, min(index,
    pageCount-1)), which lies in [0, pageCount-1] whenever the page count is
    at least 1.  A settle that finds nothing rendered sets the page count to
    1, selects no page and leaves the page index as it was, so the index is
    in range afterwards exactly when it was 0. *)
Theorem page_index_at_settle (viewportRef flowRef : option HTMLElement)
    (s : App.AppState) (index : Z) :
  (forall viewport flow,
     viewportRef = Some viewport -> flowRef = Some flow -> App.tokens s <> [] ->
     let s' := fst (App.settle viewportRef flowRef s) in
     let requested :=
       match App.pendingPageRef s, App.anchorTokenRef s with
       | Some pending, _ => pending
       | None, Some anchor =>
           match Paginate.getTokenPageIndex anchor flow viewport with
           | Some page => page
           | None => App.pageIndex s
           end
       | None, None => App.pageIndex s
       end in
     0 <= App.pageIndex s' <= App.pageCount s' - 1 /\
     App.pageIndex s' = Spec.clampPage requested (App.pageCount s') /\
     snd (App.settle viewportRef flowRef s) = Some (App.pageIndex s')) /\
  (forall viewport,
     let page := Spec.clampPage index (App.pageCount s) in
     App.scrollToPage (Some viewport) s index = Some (page * clientWidth viewport) /\
     (1 <= App.pageCount s -> 0 <= page <= App.pageCount s - 1)) /\
  (viewportRef = None \/ flowRef = None \/ App.tokens s = [] ->
   let s' := fst (App.settle viewportRef flowRef s) in
   snd (App.settle viewportRef flowRef s) = None /\
   App.pageCount s' = 1 /\
   App.pageIndex s' = App.pageIndex s /\
   (0 <= App.pageIndex s' <= App.pageCount s' - 1 <-> App.pageIndex s = 0)).
Proof.
  split; [|split].
  - intros viewport flow -> -> Hne s' requested.
    pose proof (getPageCount_ge_1 viewport flow) as Hn.
    assert (Hc : App.pageCount s' = Paginate.getPageCount viewport flow).
    { subst s'. now rewrite (settle_rendered viewport flow s Hne). }
    assert (Hpage : App.pageIndex s' =
                    Spec.clampPage requested (Paginate.getPageCount viewport flow)).
    { subst s' requested. rewrite (settle_rendered viewport flow s Hne).
      cbv zeta. simpl. unfold App.selectTargetPage.
      destruct (App.pendingPageRef s) as [pending|]; simpl;
        [now apply clamp_clampPage|].
      destruct (App.anchorTokenRef s) as [anchor|]; simpl;
        [|now apply clamp_clampPage].
      destruct (Paginate.getTokenPageIndex anchor flow viewport); simpl;
        now apply clamp_clampPage. }
    rewrite Hc. split; [rewrite Hpage; now apply clampPage_range|].
    split; [exact Hpage|].
    subst s'. now rewrite (settle_rendered viewport flow s Hne).
  - intros viewport page. subst page. split.
    + unfold App.scrollToPage, JS.clamp, Spec.clampPage. do 2 f_equal. lia.
    + intros Hcount. now apply clampPage_range.
  - intros Hnone s'. subst s'. unfold App.settle.
    destruct flowRef as [flow|], viewportRef as [viewport|],
      (App.tokens s) as [|tok toks] eqn:Htok;
      try (simpl; repeat split; lia).
    destruct Hnone as [H|[H|H]]; discriminate.
Qed.

(** Scenario D: a restored page index 7 with four pages settles on page 3.
    Scenario C: asking for page 5 of 3 scrolls to page 2.  And the settle
    after a failed load keeps the page index it finds. *)
Lemma page_index_at_settle_witness :
  let s := App.handleLoadSettled
             (Sample.parseOnly Sample.storedText (Sample.storedRecord 7 18))
             (Sample.storeFor "url:b.pdf") App.initialState
             (App.Fulfilled Sample.resultB) in
  let s2 := fst (App.settle (Some Sample.viewport800) (Some Sample.flow2400) s) in
  let failed := App.handleLoadSettled (fun _ => None) ∅ s2
                  (App.Rejected App.OtherValue) in
  App.pageIndex (fst (App.settle (Some Sample.viewport800) (Some Sample.flow3200) s)) = 3 /\
  App.scrollToPage (Some Sample.viewport800) s2 5 = Some (2 * 800) /\
  App.pageIndex (fst (App.settle (Some Sample.viewport800) (Some Sample.flow2400) failed))
    = 2.
Proof.
  intros s s2 failed.
  destruct (page_index_at_settle (Some Sample.viewport800) (Some Sample.flow3200) s 0)
    as (Hrendered & _ & _).
  destruct (Hrendered Sample.viewport800 Sample.flow3200 eq_refl eq_refl
              ltac:(discriminate)) as (_ & Hpage & _).
  split; [rewrite Hpage; reflexivity|].
  destruct (page_index_at_settle None None s2 5) as (_ & Hscroll & _).
  destruct (Hscroll Sample.viewport800) as [Hleft _].
  split; [rewrite Hleft; reflexivity|].
  destruct (page_index_at_settle (Some Sample.viewport800) (Some Sample.flow2400)
              failed 0) as (_ & _ & Hearly).
  destruct (Hearly (or_intror (or_intror eq_refl))) as (_ & _ & Hidx & _).
  rewrite Hidx. reflexivity.
Defined.

(** *** The anchor slot *)

(** C8 as the specification words it, "the anchor slot is cleared on every
    settle", does not hold: a load result arriving between a resize capture
    and the settle leaves a pending page index, the settle consumes that, and
    the captured anchor is still in its slot afterwards. *)
Lemma anchor_survives_pending_settle :
  let s1 := App.onResize (Some Sample.viewport800) (Some Sample.flow1600)
              Sample.reading in
  let s2 := App.handleLoadSettled (fun _ => None) ∅ s1
              (App.Fulfilled Sample.resultB) in
  let s3 := fst (App.settle (Some Sample.viewport800) (Some Sample.flow1600) s2) in
  App.tokens s2 <> [] /\
  App.anchorTokenRef s2 = Some 2 /\
  App.pendingPageRef s2 = Some 0 /\
  App.anchorTokenRef s3 = Some 2 /\
  ~ (forall viewport flow s,
       App.tokens s <> [] ->
       App.anchorTokenRef (fst (App.settle (Some viewport) (Some flow) s)) = None).
Proof.
  intros s1 s2 s3.
  split; [discriminate|]. split; [reflexivity|]. split; [reflexivity|].
  split; [reflexivity|].
  intros Hall.
  specialize (Hall Sample.viewport800 Sample.flow1600 s2 ltac:(discriminate)).
  discriminate Hall.
Qed.

(** C8, as the code has it.  With a document rendered, a settle leaves the
    pending slot empty.  If no page index was pending, the anchor slot is
    empty afterwards, whether or not the token was found.  If a page index was
    pending, the anchor slot is left as it was and the anchor had no part in
    the outcome: any state with the same tokens, page index and pending index
    settles on the same page.  So each settle either ignores the anchor or
    clears it, and a captured anchor decides at most one settle. *)
Theorem anchor_single_use (viewport flow : HTMLElement) (s : App.AppState) :
  App.tokens s <> [] ->
  let s' := fst (App.settle (Some viewport) (Some flow) s) in
  App.pendingPageRef s' = None /\
  (App.pendingPageRef s = None -> App.anchorTokenRef s' = None) /\
  (App.pendingPageRef s <> None ->
     App.anchorTokenRef s' = App.anchorTokenRef s /\
     forall s2,
       App.tokens s2 = App.tokens s ->
       App.pageIndex s2 = App.pageIndex s ->
       App.pendingPageRef s2 = App.pendingPageRef s ->
       snd (App.settle (Some viewport) (Some flow) s2) =
       snd (App.settle (Some viewport) (Some flow) s)).
Proof.
  intros Hne s'. subst s'.
  split; [|split].
  - rewrite (settle_rendered viewport flow s Hne). cbv zeta. simpl.
    unfold App.selectTargetPage.
    destruct (App.pendingPageRef s); [reflexivity|].
    now destruct (App.anchorTokenRef s).
  - intros Hp. rewrite (settle_rendered viewport flow s Hne). cbv zeta. simpl.
    unfold App.selectTargetPage. rewrite Hp.
    now destruct (App.anchorTokenRef s).
  - intros Hpending.
    destruct (App.pendingPageRef s) as [pending|] eqn:Hp; [|congruence].
    split.
    + rewrite (settle_rendered viewport flow s Hne). cbv zeta. simpl.
      unfold App.selectTargetPage. now rewrite Hp.
    + intros s2 Htok Hidx Hp2.
      rewrite (settle_rendered viewport flow s2) by congruence.
      rewrite (settle_rendered viewport flow s Hne).
      cbv zeta. simpl. unfold App.selectTargetPage. now rewrite Hp2, Hp.
Qed.

(** After a font change on page 1 the anchor is token 2; the settle that
    follows uses it and empties the slot, and a second settle under the same
    layout keeps the page. *)
Lemma anchor_single_use_witness :
  let s := App.onFontSizeChange (Some Sample.viewport800) (Some Sample.flow1600)
             Sample.reading 22 in
  let s' := fst (App.settle (Some Sample.viewport800) (Some Sample.flow2400) s) in
  App.tokens s <> [] /\
  App.anchorTokenRef s = Some 2 /\
  App.anchorTokenRef s' = None /\
  App.pendingPageRef s' = None.
Proof.
  intros s s'.
  assert (Hne : App.tokens s <> []) by discriminate.
  destruct (anchor_single_use Sample.viewport800 Sample.flow2400 s Hne)
    as (Hpending & Hanchor & _).
  split; [exact Hne|]. split; [reflexivity|].
  split; [apply Hanchor; reflexivity | exact Hpending].
Defined.

(** *** Loading *)

Lemma run_app (parse : string -> option Storage.JsValue)
    (store : gmap string string) (w : App.World) (trace : list App.Event)
    (ev : App.Event) :
  App.run parse store w (trace ++ [ev]) =
  App.step parse store (App.run parse store w trace) ev.
Proof. unfold App.run. now rewrite fold_left_app. Qed.

Lemma loadResultIntoState_replaces parse store (s : App.AppState)
    (result : LoadResult.t) :
  let s' := App.loadResultIntoState parse store s result in
  App.tokens s' = LoadResult.tokens result /\
  App.paragraphs s' = LoadResult.paragraphs result /\
  App.docId s' = Some (LoadResult.docId result) /\
  App.docTitle s' = LoadResult.title result /\
  App.pendingPageRef s' = Some (App.pageIndex s').
Proof.
  unfold App.loadResultIntoState.
  destruct (Storage.restoreReadingState _ _ _); simpl; repeat split.
Qed.

(** C4 as the specification words it, "a result arriving after a newer
    load started is discarded", does not hold: A starts, B starts, B's result
    arrives, A's result arrives, and the document on screen is A, not B. *)
Lemma stale_load_is_applied :
  let final := App.run (fun _ => None) ∅ Sample.freshWorld Sample.staleTrace in
  let beforeA := App.run (fun _ => None) ∅ Sample.freshWorld
                   (firstn 3 Sample.staleTrace) in
  App.docId (App.app beforeA) = Some "url:b.pdf"%string /\
  App.tokens (App.app beforeA) = LoadResult.tokens Sample.resultB /\
  App.docId (App.app final) = Some "url:a.pdf"%string /\
  App.tokens (App.app final) = LoadResult.tokens Sample.resultA /\
  App.app final <> App.app beforeA.
Proof.
  intros final beforeA.
  split; [reflexivity|]. split; [reflexivity|].
  split; [reflexivity|]. split; [reflexivity|].
  intros E. apply (f_equal App.docId) in E. discriminate E.
Qed.

(** C4, as the code has it: loads are applied in the order their results
    arrive, and nothing compares a result with the load that started last.
    Whatever happened before, once a loader's result arrives the token
    stream, paragraphs, document id and title are exactly those of that
    result (replaced, never merged), the restored or default page index is
    pending, and the loading flag is off.  The last result to arrive wins. *)
Theorem last_arrived_load_wins (parse : string -> option Storage.JsValue)
    (store : gmap string string) (w : App.World) (trace : list App.Event)
    (load : nat) (result : LoadResult.t) :
  let w' := App.run parse store w
              (trace ++ [App.LoaderSettled load (App.Fulfilled result)]) in
  App.tokens (App.app w') = LoadResult.tokens result /\
  App.paragraphs (App.app w') = LoadResult.paragraphs result /\
  App.docId (App.app w') = Some (LoadResult.docId result) /\
  App.docTitle (App.app w') = LoadResult.title result /\
  App.pendingPageRef (App.app w') = Some (App.pageIndex (App.app w')) /\
  App.isLoading (App.app w') = false.
Proof.
  intros w'. subst w'. rewrite run_app. simpl.
  pose proof (loadResultIntoState_replaces parse store
                (App.app (App.run parse store w trace)) result) as H.
  cbv zeta in H. tauto.
Qed.

(** The catch block.  When the loader's promise rejects, the token stream and the
    paragraphs are emptied, document id and title are cleared, the word count
    is 0, the loading flag is off and the error cell holds a message: the
    thrown [Error]'s own message, or "Failed to load PDF" for any other thrown
    value.  No loader is called, and the settle that follows finds no document:
    one page, no target. *)
Theorem failed_load_resets (parse : string -> option Storage.JsValue)
    (store : gmap string string) (w : App.World) (load : nat)
    (err : App.Thrown) (viewportRef flowRef : option HTMLElement) :
  let w' := App.step parse store w (App.LoaderSettled load (App.Rejected err)) in
  App.tokens (App.app w') = [] /\
  App.paragraphs (App.app w') = [] /\
  App.docId (App.app w') = None /\
  App.docTitle (App.app w') = None /\
  App.wordsOnPage (App.app w') = 0 /\
  App.isLoading (App.app w') = false /\
  App.error (App.app w') =
    Some (match err with
          | App.ErrorInstance message => message
          | App.OtherValue => "Failed to load PDF"%string
          end) /\
  App.loaderCalls w' = App.loaderCalls w /\
  App.pageCount (fst (App.settle viewportRef flowRef (App.app w'))) = 1 /\
  snd (App.settle viewportRef flowRef (App.app w')) = None.
Proof.
  intros w'. subst w'. simpl.
  repeat (split; [reflexivity|]).
  unfold App.settle. simpl.
  destruct flowRef, viewportRef; split; reflexivity.
Qed.

Example failed_load_message :
  App.error (App.app (App.run (fun _ => None) ∅ Sample.freshWorld
     [App.HandleLoad 0;
      App.LoaderSettled 0
        (App.Rejected (App.ErrorInstance "Failed to load PDF from URL (404)"))]))
  = Some "Failed to load PDF from URL (404)"%string.
Proof. reflexivity. Qed.

(** What the user sees after a failed load: the text the error cell was
    set to, unless that text is empty. *)
Lemma failed_load_alert (parse : string -> option Storage.JsValue)
    (store : gmap string string) (w : App.World) (load : nat) (err : App.Thrown) :
  App.alertShown
    (App.app (App.step parse store w (App.LoaderSettled load (App.Rejected err)))) =
  match err with
  | App.ErrorInstance EmptyString => None
  | App.ErrorInstance message => Some message
  | App.OtherValue => Some "Failed to load PDF"%string
  end.
Proof. destruct err as [[|c message]|]; reflexivity. Qed.

(** C9 does not hold of the code.  A loader that rejects with an [Error]
    whose message is empty makes the load fail without a word to the user:
    the document state is reset as on every failed load, but the error cell is
    set to the empty string and no alert is rendered.  (A thrown value that is
    not an [Error] gets the text "Failed to load PDF"; the empty message gets
    no such fallback.) *)
Theorem empty_error_message_shows_no_alert :
  let w := {| App.app := Sample.reading; App.loaderCalls := 0 |} in
  let w' := App.run (fun _ => None) ∅ w
              [App.HandleLoad 0;
               App.LoaderSettled 0 (App.Rejected (App.ErrorInstance ""))] in
  App.tokens (App.app w') = [] /\
  App.paragraphs (App.app w') = [] /\
  App.docId (App.app w') = None /\
  App.isLoading (App.app w') = false /\
  App.error (App.app w') = Some EmptyString /\
  App.alertShown (App.app w') = None.
Proof. repeat split; reflexivity. Qed.

(** *** The restored font size *)

Lemma loadResultIntoState_font parse store (s : App.AppState)
    (result : LoadResult.t) (restored : Storage.ReadingState) :
  Storage.restoreReadingState parse store (LoadResult.docId result) = Some restored ->
  App.fontSize (App.loadResultIntoState parse store s result) =
  Storage.fontSizePx restored.
Proof. intros H. unfold App.loadResultIntoState. now rewrite H. Qed.

(** C5 does not hold of the code.  A stored record with font size 100 has the
    right shape, so it is restored; the font size then in use is 100, above
    [MAX_FONT], and the settle that follows leaves it there. *)
Theorem restored_font_size_not_clamped :
  let parse := Sample.parseOnly Sample.storedText (Sample.storedRecord 0 100) in
  let store := Sample.storeFor "url:b.pdf" in
  let s := App.handleLoadSettled parse store App.initialState
             (App.Fulfilled Sample.resultB) in
  let s' := fst (App.settle (Some Sample.viewport800) (Some Sample.flow1600) s) in
  Storage.restoreReadingState parse store "url:b.pdf" =
    Some {| Storage.pageIndex := 0; Storage.fontSizePx := 100 |} /\
  App.fontSize s = 100 /\
  App.fontSize s' = 100 /\
  ~ (App.MIN_FONT <= App.fontSize s <= App.MAX_FONT).
Proof.
  intros parse store s s'.
  split; [reflexivity|]. split; [reflexivity|]. split; [reflexivity|].
  vm_compute. intros [_ H]. apply H. reflexivity.
Qed.

(** *** Counting the words of a page *)

Lemma getTokenPageFromElement_nonneg (el viewport : HTMLElement) :
  0 <= Paginate.getTokenPageFromElement el viewport.
Proof. unfold Paginate.getTokenPageFromElement. lia. Qed.

(** The counting loop classifies each token as [getTokenPageIndex] does. *)
Lemma countWordsStep_onPage (flow viewport : HTMLElement) (p count : Z)
    (token : Pdf.Token) :
  Paginate.countWordsStep flow viewport p count token =
  count + (if Spec.onPage flow viewport p token then 1 else 0).
Proof.
  unfold Paginate.countWordsStep, Spec.onPage, Paginate.getTokenPageIndex.
  destruct (querySelector flow (JS.toString (Pdf.idx token))) as [el|];
    [|lia].
  unfold Paginate.getTokenPageFromElement. cbv zeta.
  destruct (_ =? p); lia.
Qed.

Lemma countWords_fold (flow viewport : HTMLElement) (p : Z)
    (toks : list Pdf.Token) (count : Z) :
  List.fold_left (Paginate.countWordsStep flow viewport p) toks count =
  count + Z.of_nat (length (List.filter (Spec.onPage flow viewport p) toks)).
Proof.
  revert count. induction toks as [|token rest IH]; intros count; simpl; [lia|].
  rewrite IH, countWordsStep_onPage.
  destruct (Spec.onPage flow viewport p token); simpl length; lia.
Qed.

Lemma countWordsForPage_filter (toks : list Pdf.Token)
    (flow viewport : HTMLElement) (p : Z) :
  Paginate.countWordsForPage toks flow viewport p =
  Z.of_nat (length (List.filter (Spec.onPage flow viewport p) toks)).
Proof. unfold Paginate.countWordsForPage. now rewrite countWords_fold. Qed.

Lemma sumOver_snoc (ps : list Z) (p : Z) (f : Z -> Z) :
  Spec.sumOver (ps ++ [p]) f = Spec.sumOver ps f + f p.
Proof.
  unfold Spec.sumOver. induction ps as [|q ps IH]; simpl; [lia|].
  rewrite IH. lia.
Qed.

Lemma sumOver_add (ps : list Z) (f g : Z -> Z) :
  Spec.sumOver ps (fun p => f p + g p) = Spec.sumOver ps f + Spec.sumOver ps g.
Proof.
  unfold Spec.sumOver. induction ps as [|q ps IH]; simpl; [lia|].
  rewrite IH. lia.
Qed.

Lemma sumOver_zero (ps : list Z) : Spec.sumOver ps (fun _ => 0) = 0.
Proof. unfold Spec.sumOver. induction ps as [|q ps IH]; simpl; lia. Qed.

Lemma sumOver_ext (ps : list Z) (f g : Z -> Z) :
  (forall p, f p = g p) -> Spec.sumOver ps f = Spec.sumOver ps g.
Proof.
  intros E. unfold Spec.sumOver. induction ps as [|q ps IH]; simpl; [lia|].
  now rewrite IH, E.
Qed.

(** A page [q >= 0] is met exactly once among the first [k] pages when
    [q < k], and never otherwise. *)
Lemma sumOver_indicator (k : nat) (q : Z) :
  0 <= q ->
  Spec.sumOver (List.map Z.of_nat (List.seq 0 k)) (fun p => if q =? p then 1 else 0) =
  if q <? Z.of_nat k then 1 else 0.
Proof.
  intros Hq. induction k as [|k IH].
  - change (Z.of_nat 0) with 0. unfold Spec.sumOver. simpl.
    destruct (Z.ltb_spec q 0); [lia|reflexivity].
  - rewrite seq_S, List.map_app.
    change (List.map Z.of_nat [(0 + k)%nat]) with [Z.of_nat k].
    rewrite sumOver_snoc, IH.
    destruct (Z.ltb_spec q (Z.of_nat k)), (Z.eqb_spec q (Z.of_nat k)),
      (Z.ltb_spec q (Z.of_nat (S k))); lia.
Qed.

(** Summed over the pages [0, n), the per-page counts give the number of
    tokens that are rendered on some page below [n]: every such token is
    counted once, on its own page, and no other token is counted. *)
Lemma countWords_sum (toks : list Pdf.Token) (flow viewport : HTMLElement) (n : Z) :
  Spec.sumOver (Spec.pages n) (Paginate.countWordsForPage toks flow viewport) =
  Z.of_nat (length (List.filter (Spec.onSomePage flow viewport n) toks)).
Proof.
  rewrite (sumOver_ext _ _ _ (countWordsForPage_filter toks flow viewport)).
  induction toks as [|token rest IH]; simpl.
  - apply sumOver_zero.
  - rewrite (sumOver_ext _ _
      (fun p => (if Spec.onPage flow viewport p token then 1 else 0) +
                Z.of_nat (length (List.filter (Spec.onPage flow viewport p) rest)))).
    2:{ intros p. destruct (Spec.onPage flow viewport p token); simpl length; lia. }
    rewrite sumOver_add, IH.
    unfold Spec.onPage at 1, Spec.onSomePage at 2, Paginate.getTokenPageIndex.
    destruct (querySelector flow (JS.toString (Pdf.idx token))) as [el|].
    + unfold Spec.pages.
      rewrite sumOver_indicator by apply getTokenPageFromElement_nonneg.
      destruct (Z.ltb_spec (Paginate.getTokenPageFromElement el viewport)
                  (Z.of_nat (Z.to_nat n))),
               (Z.ltb_spec (Paginate.getTokenPageFromElement el viewport) n);
        simpl length; try lia.
      pose proof (getTokenPageFromElement_nonneg el viewport). lia.
    + rewrite sumOver_zero. lia.
Qed.

(** C6 as the specification words it, "for every layout the per-page counts
    add up to the number of rendered tokens", does not hold.  In the 26
    column layout there are 25 pages, numbered 0 to 24; the second token's
    left edge is past 25 * 790, so its page is 25 and no page in range counts
    it. *)
Lemma word_count_drops_token :
  Paginate.getPageCount Sample.viewport790 Sample.flow26Columns = 25 /\
  Paginate.getTokenPageIndex 1 Sample.flow26Columns Sample.viewport790 = Some 25 /\
  length (List.filter (Spec.isRendered Sample.flow26Columns) Sample.twoWords) = 2%nat /\
  Spec.sumOver
    (Spec.pages (Paginate.getPageCount Sample.viewport790 Sample.flow26Columns))
    (Paginate.countWordsForPage Sample.twoWords Sample.flow26Columns
       Sample.viewport790) = 1 /\
  Spec.sumOver
    (Spec.pages (Paginate.getPageCount Sample.viewport790 Sample.flow26Columns))
    (Paginate.countWordsForPage Sample.twoWords Sample.flow26Columns
       Sample.viewport790) <>
  Z.of_nat (length (List.filter (Spec.isRendered Sample.flow26Columns)
                      Sample.twoWords)).
Proof. repeat split; try reflexivity. discriminate. Qed.

(** Scenario B: an empty document has no words on page 0. *)
Example countWordsForPage_empty :
  Paginate.countWordsForPage [] (Sample.flowOf 0 []) Sample.viewport800 0 = 0.
Proof. reflexivity. Qed.

(** C6, as the code has it.  In a layout where every rendered token of the
    list is classified onto a page below the page count, the per-page counts
    over [0, pageCount) add up to the number of rendered tokens of the list. *)
Theorem word_count_partition (toks : list Pdf.Token) (flow viewport : HTMLElement) :
  (forall token page,
     In token toks ->
     Paginate.getTokenPageIndex (Pdf.idx token) flow viewport = Some page ->
     page < Paginate.getPageCount viewport flow) ->
  Spec.sumOver (Spec.pages (Paginate.getPageCount viewport flow))
    (Paginate.countWordsForPage toks flow viewport) =
  Z.of_nat (length (List.filter (Spec.isRendered flow) toks)).
Proof.
  intros Hin. rewrite countWords_sum. f_equal. f_equal.
  apply List.filter_ext_in. intros token Htoken.
  specialize (Hin token).
  unfold Spec.onSomePage, Spec.isRendered, Paginate.getTokenPageIndex in *.
  destruct (querySelector flow (JS.toString (Pdf.idx token))) as [el|];
    [|reflexivity].
  apply Z.ltb_lt. now apply Hin.
Qed.

Lemma word_count_partition_witness :
  Spec.sumOver (Spec.pages (Paginate.getPageCount Sample.viewport800 Sample.flow1600))
    (Paginate.countWordsForPage Sample.threeWords Sample.flow1600 Sample.viewport800)
  = Z.of_nat (length (List.filter (Spec.isRendered Sample.flow1600) Sample.threeWords))
  /\ Paginate.countWordsForPage Sample.threeWords Sample.flow1600 Sample.viewport800 0 = 2
  /\ Paginate.countWordsForPage Sample.threeWords Sample.flow1600 Sample.viewport800 1 = 1.
Proof.
  split; [|split; reflexivity].
  apply (word_count_partition Sample.threeWords Sample.flow1600 Sample.viewport800).
  intros token page Htoken.
  simpl in Htoken.
  destruct Htoken as [<-|[<-|[<-|[]]]]; intros [= <-]; reflexivity.
Defined.

(** *** The two Layout Probes agree *)

Section Refinement.

Variable viewport : HTMLElement.

Lemma getTokenPageFromElement_same (el : HTMLElement) :
  PaginateElements.getTokenPageFromElement el viewport =
  Paginate.getTokenPageFromElement el viewport.
Proof. reflexivity. Qed.

Lemma find_app_first {A} (f : A -> bool) (l1 l2 : list A) :
  List.find f (l1 ++ l2) =
  match List.find f l1 with
  | Some x => Some x
  | None => List.find f l2
  end.
Proof.
  induction l1 as [|x l1 IH]; simpl; [reflexivity|].
  now destruct (f x).
Qed.

(** [querySelector] only ever stops at an element that carries the
    attribute, so it may as well search the [querySelectorAll] list. *)
Lemma querySelector_querySelectorAll (flow : HTMLElement) (v : string) :
  querySelector flow v = List.find (matchesDataIdx v) (querySelectorAll flow).
Proof.
  unfold querySelector, querySelectorAll.
  induction (descendants flow) as [|el els IH]; simpl; [reflexivity|].
  destruct (hasDataIdx el) eqn:Hh; simpl.
  - destruct (matchesDataIdx v el); [reflexivity|exact IH].
  - assert (matchesDataIdx v el = false) as ->; [|exact IH].
    unfold matchesDataIdx, hasDataIdx in *.
    destruct (dataIdx el); [discriminate|reflexivity].
Qed.

Lemma matches_toString (i k : Z) (el : HTMLElement) :
  dataIdx el = Some (JS.toString i) ->
  matchesDataIdx (JS.toString k) el = (i =? k).
Proof.
  intros Ha. unfold matchesDataIdx. rewrite Ha.
  destruct (Z.eqb_spec i k) as [->|Hne].
  - apply String.eqb_refl.
  - apply String.eqb_neq. intros E. now apply toString_inj in E.
Qed.

Lemma paired_cons_inv (t : Pdf.Token) (toks : list Pdf.Token) (els : list HTMLElement) :
  Spec.paired (t :: toks) els ->
  exists el els', els = el :: els' /\
                  dataIdx el = Some (JS.toString (Pdf.idx t)) /\ Spec.paired toks els'.
Proof.
  unfold Spec.paired. destruct els as [|el els']; simpl; [discriminate|].
  intros [= Ha Hrest]. eauto.
Qed.

Lemma paired_find_absent (toks : list Pdf.Token) (els : list HTMLElement) (k : Z) :
  Spec.paired toks els -> ~ In k (List.map Pdf.idx toks) ->
  List.find (matchesDataIdx (JS.toString k)) els = None.
Proof.
  revert els. induction toks as [|t toks IH]; intros els Hp Hk.
  - destruct els; [reflexivity|discriminate].
  - apply paired_cons_inv in Hp as (el & els' & -> & Ha & Hp). simpl in *.
    rewrite (matches_toString _ k _ Ha).
    destruct (Z.eqb_spec (Pdf.idx t) k); [tauto|].
    apply IH; [exact Hp|tauto].
Qed.

(** With distinct indices, searching for a token's numeral finds the
    element at the token's own position, whatever unrelated elements come
    first. *)
Lemma paired_find (pre : list HTMLElement) (toks : list Pdf.Token)
    (els : list HTMLElement) :
  Spec.paired toks els -> List.NoDup (List.map Pdf.idx toks) ->
  (forall t, In t toks ->
     List.find (matchesDataIdx (JS.toString (Pdf.idx t))) pre = None) ->
  List.Forall2
    (fun t el =>
       List.find (matchesDataIdx (JS.toString (Pdf.idx t))) (pre ++ els) = Some el /\
       dataIdx el = Some (JS.toString (Pdf.idx t)))
    toks els.
Proof.
  revert pre els. induction toks as [|t toks IH]; intros pre els Hp Hnd Hpre.
  - destruct els; [constructor|discriminate].
  - apply paired_cons_inv in Hp as (el & els' & -> & Ha & Hp).
    simpl in Hnd. apply List.NoDup_cons_iff in Hnd as [Hnotin Hnd].
    constructor.
    + split; [|exact Ha].
      rewrite find_app_first, (Hpre t (or_introl eq_refl)). simpl.
      now rewrite (matches_toString _ _ _ Ha), Z.eqb_refl.
    + replace (pre ++ el :: els') with ((pre ++ [el]) ++ els')
        by now rewrite <- List.app_assoc.
      apply IH; [exact Hp|exact Hnd|].
      intros t' Ht'. rewrite find_app_first, (Hpre t' (or_intror Ht')). simpl.
      rewrite (matches_toString _ _ _ Ha).
      destruct (Z.eqb_spec (Pdf.idx t) (Pdf.idx t')) as [E|_]; [|reflexivity].
      exfalso. apply Hnotin. rewrite E. now apply List.in_map.
Qed.

Variable flow : HTMLElement.

(** The index map answers a lookup as the search through the element list
    does. *)
Lemma collect_lookup (toks : list Pdf.Token) (els : list HTMLElement)
    (m : gmap Z HTMLElement) (k : Z) :
  Spec.paired toks els -> List.NoDup (List.map Pdf.idx toks) ->
  List.fold_left PaginateElements.collectStep els m !! k =
  match List.find (matchesDataIdx (JS.toString k)) els with
  | Some el => Some el
  | None => m !! k
  end.
Proof.
  revert els m. induction toks as [|t toks IH]; intros els m Hp Hnd.
  - destruct els; [reflexivity|discriminate].
  - apply paired_cons_inv in Hp as (el & els' & -> & Ha & Hp).
    simpl in Hnd. apply List.NoDup_cons_iff in Hnd as [Hnotin Hnd].
    simpl. rewrite (IH els' _ Hp Hnd).
    rewrite (matches_toString _ k _ Ha).
    unfold PaginateElements.collectStep. rewrite Ha.
    destruct (String.eqb_spec (JS.toString (Pdf.idx t)) "") as [E|_];
      [now apply toString_nonempty in E|].
    rewrite Number_toString.
    destruct (Z.eqb_spec (Pdf.idx t) k) as [<-|Hne].
    + rewrite (paired_find_absent toks els' _ Hp Hnotin).
      apply lookup_insert_eq.
    + destruct (List.find _ els'); [reflexivity|].
      now apply lookup_insert_ne.
Qed.

Lemma findAnchor_paired (toks : list Pdf.Token) (els : list HTMLElement) (p : Z) :
  List.Forall2
    (fun t el =>
       querySelector flow (JS.toString (Pdf.idx t)) = Some el /\
       dataIdx el = Some (JS.toString (Pdf.idx t)))
    toks els ->
  Paginate.findAnchorTokenIndex toks flow viewport p =
  PaginateElements.findAnchorTokenIndex els viewport p.
Proof.
  induction 1 as [|t el toks els [Hq Ha] _ IH]; simpl; [reflexivity|].
  rewrite Hq.
  change (PaginateElements.getTokenPageFromElement el viewport)
    with (Paginate.getTokenPageFromElement el viewport).
  destruct (_ =? p); [|exact IH].
  unfold PaginateElements.datasetIdxNumber. now rewrite Ha, Number_toString.
Qed.

Lemma countWords_paired (toks : list Pdf.Token) (els : list HTMLElement)
    (p count : Z) :
  List.Forall2
    (fun t el =>
       querySelector flow (JS.toString (Pdf.idx t)) = Some el /\
       dataIdx el = Some (JS.toString (Pdf.idx t)))
    toks els ->
  List.fold_left (Paginate.countWordsStep flow viewport p) toks count =
  List.fold_left (PaginateElements.countWordsStep viewport p) els count.
Proof.
  intros H. revert count.
  induction H as [|t el toks els [Hq Ha] _ IH]; intros count; simpl;
    [reflexivity|].
  rewrite IH. f_equal.
  unfold Paginate.countWordsStep, PaginateElements.countWordsStep.
  now rewrite Hq.
Qed.

End Refinement.

(** C10.  When the elements of the flow that carry [data-idx], taken in
    document order, spell the indices of the token list one for one, and the
    indices are distinct, the per-token [querySelector] functions and the
    element-collection functions agree: on the page of every token index, on
    the anchor token of every page, on the word count of every page, and on
    the page count. *)
Theorem layout_probe_refinement (toks : list Pdf.Token) (flow viewport : HTMLElement) :
  List.map dataIdx (querySelectorAll flow) =
    List.map (fun t => Some (JS.toString (Pdf.idx t))) toks ->
  List.NoDup (List.map Pdf.idx toks) ->
  let collected := PaginateElements.collectTokenElements flow in
  (forall tokenIdx,
     Paginate.getTokenPageIndex tokenIdx flow viewport =
     PaginateElements.getTokenPageIndex tokenIdx
       (PaginateElements.byIndex collected) viewport) /\
  (forall pageIndex,
     Paginate.findAnchorTokenIndex toks flow viewport pageIndex =
     PaginateElements.findAnchorTokenIndex
       (PaginateElements.ordered collected) viewport pageIndex) /\
  (forall pageIndex,
     Paginate.countWordsForPage toks flow viewport pageIndex =
     PaginateElements.countWordsForPage
       (PaginateElements.ordered collected) viewport pageIndex) /\
  Paginate.getPageCount viewport flow = PaginateElements.getPageCount viewport flow.
Proof.
  intros Hp Hnd collected. subst collected.
  unfold PaginateElements.collectTokenElements. simpl.
  assert (HF : List.Forall2
                 (fun t el =>
                    querySelector flow (JS.toString (Pdf.idx t)) = Some el /\
                    dataIdx el = Some (JS.toString (Pdf.idx t)))
                 toks (querySelectorAll flow)).
  { pose proof (paired_find [] toks (querySelectorAll flow) Hp Hnd
                  (fun _ _ => eq_refl)) as H.
    simpl in H. eapply List.Forall2_impl; [|exact H].
    intros t el [Hf Ha]. split; [|exact Ha].
    now rewrite querySelector_querySelectorAll. }
  split; [|split; [|split]].
  - intros k.
    unfold Paginate.getTokenPageIndex, PaginateElements.getTokenPageIndex.
    rewrite (collect_lookup toks _ ∅ k Hp Hnd), querySelector_querySelectorAll.
    destruct (List.find _ _); [reflexivity|].
    now rewrite lookup_empty.
  - intros p. now apply findAnchor_paired.
  - intros p. now apply countWords_paired.
  - reflexivity.
Qed.

Lemma layout_probe_refinement_witness :
  let collected := PaginateElements.collectTokenElements Sample.flow1600 in
  List.NoDup (List.map Pdf.idx Sample.threeWords) /\
  PaginateElements.getTokenPageIndex 2
    (PaginateElements.byIndex collected) Sample.viewport800 = Some 1 /\
  PaginateElements.findAnchorTokenIndex
    (PaginateElements.ordered collected) Sample.viewport800 1 = Some 2 /\
  PaginateElements.countWordsForPage
    (PaginateElements.ordered collected) Sample.viewport800 0 = 2.
Proof.
  intros collected.
  assert (Hnd : List.NoDup (List.map Pdf.idx Sample.threeWords)).
  { simpl. repeat constructor; simpl; intuition discriminate. }
  split; [exact Hnd|].
  destruct (layout_probe_refinement Sample.threeWords Sample.flow1600
              Sample.viewport800 eq_refl Hnd) as (Hpage & Hanchor & Hcount & _).
  fold collected in Hpage, Hanchor, Hcount.
  rewrite <- Hpage, <- Hanchor, <- Hcount.
  repeat split; reflexivity.
Defined.

(** Outside that condition the two probes can differ: an element marked
    ["07"] is not found by the selector for token 7, but the index map files
    it under 7. *)
Example leading_zero_probes_differ :
  Paginate.getTokenPageIndex 7 Sample.flowLeadingZero Sample.viewport800 = None /\
  PaginateElements.getTokenPageIndex 7
    (PaginateElements.byIndex
       (PaginateElements.collectTokenElements Sample.flowLeadingZero))
    Sample.viewport800 = Some 0.
Proof. split; reflexivity. Qed.

(** ** Further properties of the Layout Probe *)

Lemma getTokenPageFromElement_relativeLeft (el viewport : HTMLElement) :
  Paginate.getTokenPageFromElement el viewport =
  Z.max 0 (Qfloor (Layout.relativeLeft el viewport
                   / inject_Z (Z.max 1 (clientWidth viewport)))).
Proof. reflexivity. Qed.

Lemma Qfloor_div_bounds (x : Q) (w : Z) :
  0 < w ->
  (inject_Z (Qfloor (x / inject_Z w) * w) <= x /\
   x < inject_Z ((Qfloor (x / inject_Z w) + 1) * w))%Q.
Proof.
  intros Hw.
  assert (Hq : (inject_Z 0 < inject_Z w)%Q) by (rewrite <- Zlt_Qlt; exact Hw).
  change (inject_Z 0) with 0%Q in Hq.
  assert (Hne : ~ (inject_Z w == 0)%Q) by (intros E; rewrite E in Hq; lra).
  pose proof (Qfloor_le (x / inject_Z w)) as Hlo.
  pose proof (Qlt_floor (x / inject_Z w)) as Hhi.
  set (p := Qfloor (x / inject_Z w)) in *.
  assert (Hx : (x == (x / inject_Z w) * inject_Z w)%Q) by (field; exact Hne).
  rewrite !inject_Z_mult. rewrite inject_Z_plus in *.
  pose proof (proj2 (Qmult_le_r _ _ _ Hq) Hlo) as H1.
  pose proof (proj2 (Qmult_lt_r _ _ _ Hq) Hhi) as H2.
  rewrite <- Hx in H1, H2. split; assumption.
Qed.

Lemma Qfloor_div_unique (x : Q) (w p : Z) :
  0 < w ->
  (inject_Z (p * w) <= x)%Q -> (x < inject_Z ((p + 1) * w))%Q ->
  Qfloor (x / inject_Z w) = p.
Proof.
  intros Hw Hlo Hhi.
  destruct (Qfloor_div_bounds x w Hw) as [Hlo' Hhi'].
  set (q := Qfloor (x / inject_Z w)) in *.
  assert (H1 : (inject_Z (p * w) < inject_Z ((q + 1) * w))%Q) by lra.
  assert (H2 : (inject_Z (q * w) < inject_Z ((p + 1) * w))%Q) by lra.
  rewrite <- Zlt_Qlt in H1, H2. nia.
Qed.

(** The sample spans and viewports are measured in whole pixels. *)
Lemma sample_span_exact (v : string) (x width : Z) :
  Z.abs x <= 2 ^ 50 ->
  Layout.exactlyMeasured (Sample.span v x) (Sample.viewportOf width).
Proof.
  intros Hx. repeat split.
  - exists x. split; [reflexivity|exact Hx].
  - exists 0. split; [reflexivity|]. vm_compute. discriminate.
  - exists 0. split; [reflexivity|]. vm_compute. discriminate.
Qed.

(** X1.  A token's page is the viewport-wide column its left edge falls in.
    When the three offsets are whole pixels (so that the source's double
    arithmetic is exact), with [w = max(1, clientWidth)] and [x] the left
    edge measured from the start of the scrolled content, page [p] satisfies
    p*w <= x < (p+1)*w when [x >= 0] and no other integer does; a left edge
    before the start is put on page 0. *)
Theorem token_page_is_column (el viewport : HTMLElement) :
  Layout.exactlyMeasured el viewport ->
  let w := Z.max 1 (clientWidth viewport) in
  let x := Layout.relativeLeft el viewport in
  let p := Paginate.getTokenPageFromElement el viewport in
  ((x < 0)%Q -> p = 0) /\
  ((0 <= x)%Q ->
     (inject_Z (p * w) <= x)%Q /\ (x < inject_Z ((p + 1) * w))%Q /\
     forall p', (inject_Z (p' * w) <= x)%Q -> (x < inject_Z ((p' + 1) * w))%Q ->
                p' = p).
Proof.
  intros _ w x p. subst p. rewrite getTokenPageFromElement_relativeLeft.
  fold x. fold w.
  assert (Hw : 0 < w) by (subst w; lia).
  destruct (Qfloor_div_bounds x w Hw) as [Hlo Hhi].
  set (q := Qfloor (x / inject_Z w)) in *.
  split.
  - intros Hneg.
    assert (H : (inject_Z (q * w) < inject_Z 0)%Q)
      by (change (inject_Z 0) with 0%Q; lra).
    rewrite <- Zlt_Qlt in H. nia.
  - intros Hpos.
    assert (Hq : 0 <= q).
    { assert (H : (inject_Z 0 < inject_Z ((q + 1) * w))%Q)
        by (change (inject_Z 0) with 0%Q; lra).
      rewrite <- Zlt_Qlt in H. nia. }
    rewrite Z.max_r by exact Hq.
    split; [exact Hlo|]. split; [exact Hhi|].
    intros p' Hlo' Hhi'. subst q. symmetry.
    now apply Qfloor_div_unique.
Qed.

Lemma token_page_is_column_witness :
  Layout.exactlyMeasured (Sample.span "2" 1700) Sample.viewport800 /\
  (0 <= Layout.relativeLeft (Sample.span "2" 1700) Sample.viewport800)%Q /\
  Paginate.getTokenPageFromElement (Sample.span "2" 1700) Sample.viewport800 = 2.
Proof.
  assert (Hexact : Layout.exactlyMeasured (Sample.span "2" 1700) Sample.viewport800)
    by (apply sample_span_exact; vm_compute; discriminate).
  assert (Hpos : (0 <= Layout.relativeLeft (Sample.span "2" 1700)
                         Sample.viewport800)%Q) by (vm_compute; discriminate).
  split; [exact Hexact|]. split; [exact Hpos|].
  destruct (token_page_is_column (Sample.span "2" 1700) Sample.viewport800 Hexact)
    as [_ H].
  destruct (H Hpos) as (_ & _ & Huniq).
  symmetry. apply Huniq; vm_compute; [discriminate|reflexivity].
Defined.

(** X2.  A token whose left edge lies inside the flow's extent is on a page
    below the page count: when the three offsets are whole pixels and the
    left edge, measured from the start of the scrolled content, is below
    [flow.scrollWidth], the token's page is at most [getPageCount - 1]. *)
Theorem token_inside_extent_has_page (el viewport flow : HTMLElement) :
  Layout.exactlyMeasured el viewport ->
  (Layout.relativeLeft el viewport < inject_Z (scrollWidth flow))%Q ->
  Paginate.getTokenPageFromElement el viewport
    <= Paginate.getPageCount viewport flow - 1.
Proof.
  intros _ Hin.
  pose proof (getPageCount_ge_1 viewport flow) as Hn.
  rewrite getPageCount_closed_form in *. cbv zeta in *.
  rewrite getTokenPageFromElement_relativeLeft.
  set (w := Z.max 1 (clientWidth viewport)) in *.
  set (x := Layout.relativeLeft el viewport) in *.
  set (e := scrollWidth flow) in *.
  assert (Hw : 0 < w) by (subst w; lia).
  destruct (Qfloor_div_bounds x w Hw) as [Hlo _].
  set (q := Qfloor (x / inject_Z w)) in *.
  assert (H : (inject_Z (q * w) < inject_Z e)%Q) by lra.
  rewrite <- Zlt_Qlt in H.
  pose proof (Z.div_mod (e + w - 1) w ltac:(lia)) as Hd.
  pose proof (Z.mod_pos_bound (e + w - 1) w Hw) as Hm.
  assert (q < (e + w - 1) / w) by nia.
  lia.
Qed.

Lemma token_inside_extent_has_page_witness :
  Layout.exactlyMeasured (Sample.span "2" 1700) Sample.viewport800 /\
  (Layout.relativeLeft (Sample.span "2" 1700) Sample.viewport800
     < inject_Z (scrollWidth Sample.flow2400))%Q /\
  Paginate.getTokenPageFromElement (Sample.span "2" 1700) Sample.viewport800
    <= Paginate.getPageCount Sample.viewport800 Sample.flow2400 - 1.
Proof.
  assert (Hexact : Layout.exactlyMeasured (Sample.span "2" 1700) Sample.viewport800)
    by (apply sample_span_exact; vm_compute; discriminate).
  assert (H : (Layout.relativeLeft (Sample.span "2" 1700) Sample.viewport800
                 < inject_Z (scrollWidth Sample.flow2400))%Q)
    by (vm_compute; reflexivity).
  split; [exact Hexact|]. split; [exact H|].
  exact (token_inside_extent_has_page _ _ _ Hexact H).
Defined.

(** The next three lemmas are about the exact sums; the source computes the
    same sums whenever the offsets are whole pixels. *)

Lemma find_map_pre {A B} (f : B -> bool) (g : A -> B) (l : list A) :
  List.find f (List.map g l) = option_map g (List.find (fun a => f (g a)) l).
Proof.
  induction l as [|a l IH]; simpl; [reflexivity|].
  now destruct (f (g a)).
Qed.

Lemma inject_Z_width_nonzero (clientWidth : Z) :
  ~ (inject_Z (Z.max 1 clientWidth) == 0)%Q.
Proof. unfold Qeq. simpl. lia. Qed.

Lemma scrolled_element_page (d : Q) (el viewport : HTMLElement) :
  Paginate.getTokenPageFromElement (Layout.scrolledElement d el)
    (Layout.scrolledViewport d viewport) =
  Paginate.getTokenPageFromElement el viewport.
Proof.
  unfold Paginate.getTokenPageFromElement, Layout.scrolledElement,
    Layout.scrolledViewport.
  cbn [clientRects boundingClientRect scrollLeft clientWidth].
  f_equal. apply Qfloor_comp.
  destruct (clientRects el) as [|r rs];
    cbn [List.map Layout.moveRect left]; field;
    apply inject_Z_width_nonzero.
Qed.

Lemma scrolled_flow_page (d : Q) (k : Z) (flow viewport : HTMLElement) :
  Paginate.getTokenPageIndex k (Layout.scrolledFlow d flow)
    (Layout.scrolledViewport d viewport) =
  Paginate.getTokenPageIndex k flow viewport.
Proof.
  unfold Paginate.getTokenPageIndex, querySelector. simpl.
  rewrite find_map_pre.
  change (fun a => matchesDataIdx (JS.toString k) (Layout.scrolledElement d a))
    with (matchesDataIdx (JS.toString k)).
  destruct (List.find _ _) as [el|]; simpl; [|reflexivity].
  now rewrite scrolled_element_page.
Qed.

(** X3.  The measurements do not depend on where the viewport is scrolled
    to, as long as everything is measured in whole pixels.  After the
    viewport scrolls a further [d] pixels (its [scrollLeft] grows by [d] and
    every rectangle of the content moves [d] to the left), every token has
    the same page, every page the same anchor token and the same word count,
    and the page count is the same. *)
Theorem measurements_ignore_scroll (d : Z) (toks : list Pdf.Token)
    (flow viewport : HTMLElement) :
  Z.abs d <= 2 ^ 50 ->
  (forall el, In el (descendants flow) -> Layout.exactlyMeasured el viewport) ->
  let flow' := Layout.scrolledFlow (inject_Z d) flow in
  let viewport' := Layout.scrolledViewport (inject_Z d) viewport in
  (forall tokenIdx,
     Paginate.getTokenPageIndex tokenIdx flow' viewport' =
     Paginate.getTokenPageIndex tokenIdx flow viewport) /\
  (forall pageIndex,
     Paginate.findAnchorTokenIndex toks flow' viewport' pageIndex =
     Paginate.findAnchorTokenIndex toks flow viewport pageIndex) /\
  (forall pageIndex,
     Paginate.countWordsForPage toks flow' viewport' pageIndex =
     Paginate.countWordsForPage toks flow viewport pageIndex) /\
  Paginate.getPageCount viewport' flow' = Paginate.getPageCount viewport flow.
Proof.
  intros _ _ flow' viewport'. subst flow' viewport'.
  split; [intros k; apply scrolled_flow_page|].
  split; [|split; [|reflexivity]].
  - intros p. induction toks as [|token rest IH]; simpl; [reflexivity|].
    pose proof (scrolled_flow_page (inject_Z d) (Pdf.idx token) flow viewport) as H.
    unfold Paginate.getTokenPageIndex in H.
    destruct (querySelector (Layout.scrolledFlow (inject_Z d) flow) _) as [el'|],
             (querySelector flow _) as [el|]; try discriminate; [|exact IH].
    injection H as ->. now rewrite IH.
  - intros p. rewrite !countWordsForPage_filter. f_equal. f_equal.
    apply List.filter_ext. intros token. unfold Spec.onPage.
    now rewrite scrolled_flow_page.
Qed.

Lemma measurements_ignore_scroll_witness :
  let flow' := Layout.scrolledFlow (inject_Z 800) Sample.flow1600 in
  let viewport' := Layout.scrolledViewport (inject_Z 800) Sample.viewport800 in
  Z.abs 800 <= 2 ^ 50 /\
  (forall el, In el (descendants Sample.flow1600) ->
              Layout.exactlyMeasured el Sample.viewport800) /\
  Paginate.getTokenPageIndex 2 flow' viewport' = Some 1 /\
  Paginate.countWordsForPage Sample.threeWords flow' viewport' 0 = 2.
Proof.
  intros flow' viewport'.
  assert (Hd : Z.abs 800 <= 2 ^ 50) by (vm_compute; discriminate).
  assert (Hall : forall el, In el (descendants Sample.flow1600) ->
                            Layout.exactlyMeasured el Sample.viewport800).
  { intros el [<-|[<-|[<-|[<-|[]]]]];
      repeat split; (eexists; split; [reflexivity|vm_compute; discriminate]). }
  split; [exact Hd|]. split; [exact Hall|].
  destruct (measurements_ignore_scroll 800 Sample.threeWords Sample.flow1600
              Sample.viewport800 Hd Hall) as (Hpage & _ & Hcount & _).
  fold flow' viewport' in Hpage, Hcount.
  rewrite Hpage, Hcount. split; reflexivity.
Defined.

(** X4.  The word count of a page is never negative, never more than the
    number of tokens that have an element in the flow, hence never more than
    the number of tokens; for a negative page index it is 0. *)
Theorem countWordsForPage_bounds (toks : list Pdf.Token)
    (flow viewport : HTMLElement) (pageIndex : Z) :
  0 <= Paginate.countWordsForPage toks flow viewport pageIndex
    <= Z.of_nat (length (List.filter (Spec.isRendered flow) toks)) /\
  (length (List.filter (Spec.isRendered flow) toks) <= length toks)%nat /\
  (pageIndex < 0 -> Paginate.countWordsForPage toks flow viewport pageIndex = 0).
Proof.
  rewrite countWordsForPage_filter.
  split; [|split].
  - split; [lia|]. apply inj_le.
    induction toks as [|token rest IH]; simpl; [lia|].
    unfold Spec.onPage, Spec.isRendered, Paginate.getTokenPageIndex in *.
    destruct (querySelector flow (JS.toString (Pdf.idx token))) as [el|];
      [|exact IH].
    destruct (_ =? pageIndex); simpl; lia.
  - induction toks as [|token rest IH]; simpl; [lia|].
    destruct (Spec.isRendered flow token); simpl; lia.
  - intros Hneg. induction toks as [|token rest IH]; simpl; [reflexivity|].
    unfold Spec.onPage, Paginate.getTokenPageIndex in *.
    destruct (querySelector flow (JS.toString (Pdf.idx token))) as [el|];
      [|exact IH].
    pose proof (getTokenPageFromElement_nonneg el viewport) as Hp.
    destruct (Z.eqb_spec (Paginate.getTokenPageFromElement el viewport) pageIndex);
      [lia|exact IH].
Qed.

Lemma countWordsForPage_bounds_witness :
  -1 < 0 /\
  Paginate.countWordsForPage Sample.threeWords Sample.flow1600
    Sample.viewport800 (-1) = 0.
Proof.
  split; [lia|].
  apply (countWordsForPage_bounds Sample.threeWords Sample.flow1600
           Sample.viewport800 (-1)).
  lia.
Defined.

(** *** The index map *)

Lemma collectStep_indexKey (m : gmap Z HTMLElement) (el : HTMLElement) :
  PaginateElements.collectStep m el =
  match Probe.indexKey el with
  | Some i => <[i := el]> m
  | None => m
  end.
Proof.
  unfold PaginateElements.collectStep, Probe.indexKey.
  destruct (dataIdx el) as [raw|]; [|reflexivity].
  now destruct (String.eqb raw "").
Qed.

Lemma collect_fold_lookup (els : list HTMLElement) (m : gmap Z HTMLElement) (k : Z) :
  List.fold_left PaginateElements.collectStep els m !! k =
  match List.find (Probe.hasKey k) (List.rev els) with
  | Some el => Some el
  | None => m !! k
  end.
Proof.
  revert m. induction els as [|el els IH]; intros m; simpl; [reflexivity|].
  rewrite IH, find_app_first. simpl.
  destruct (List.find (Probe.hasKey k) (List.rev els)); [reflexivity|].
  rewrite collectStep_indexKey. unfold Probe.hasKey.
  destruct (Probe.indexKey el) as [i|]; [|reflexivity].
  destruct (Z.eqb_spec i k) as [->|Hne].
  - apply lookup_insert_eq.
  - now apply lookup_insert_ne.
Qed.

(** X5.  What [collectTokenElements] returns.  [ordered] holds exactly the
    descendants that carry a [data-idx] attribute, in document order.
    Looking up [k] in [byIndex] gives the last element of [ordered] filed
    under [k] (attribute present, not empty, converting to [k]), and nothing
    when there is none; so a later element with the same index replaces an
    earlier one, and every element found is one of [ordered]. *)
Theorem collectTokenElements_lookup (flow : HTMLElement) (k : Z) :
  let collected := PaginateElements.collectTokenElements flow in
  PaginateElements.ordered collected = List.filter hasDataIdx (descendants flow) /\
  PaginateElements.byIndex collected !! k =
    List.find (Probe.hasKey k) (List.rev (PaginateElements.ordered collected)) /\
  (forall el,
     PaginateElements.byIndex collected !! k = Some el ->
     In el (PaginateElements.ordered collected) /\
     dataIdx el <> None /\ dataIdx el <> Some EmptyString /\
     PaginateElements.datasetIdxNumber el = Some k).
Proof.
  intros collected. subst collected.
  unfold PaginateElements.collectTokenElements. simpl.
  split; [reflexivity|].
  assert (E : List.fold_left PaginateElements.collectStep (querySelectorAll flow) ∅
              !! k =
              List.find (Probe.hasKey k) (List.rev (querySelectorAll flow))).
  { rewrite collect_fold_lookup.
    destruct (List.find _ _); [reflexivity|apply lookup_empty]. }
  split; [exact E|].
  intros el Hel. rewrite E in Hel.
  apply List.find_some in Hel as [Hin Hkey].
  split; [now apply List.in_rev|].
  unfold Probe.hasKey, Probe.indexKey, PaginateElements.datasetIdxNumber in *.
  destruct (dataIdx el) as [raw|]; [|discriminate].
  destruct (String.eqb_spec raw "") as [E'|Hne]; [discriminate|].
  destruct (JS.Number raw) as [i|]; [|discriminate].
  apply Z.eqb_eq in Hkey. subst i.
  repeat split; congruence.
Qed.

Lemma collectTokenElements_lookup_witness :
  let collected := PaginateElements.collectTokenElements Sample.flowDuplicate in
  PaginateElements.byIndex collected !! 1 = Some (Sample.span "1" 900) /\
  In (Sample.span "1" 900) (PaginateElements.ordered collected) /\
  PaginateElements.datasetIdxNumber (Sample.span "1" 900) = Some 1.
Proof.
  intros collected.
  destruct (collectTokenElements_lookup Sample.flowDuplicate 1)
    as (_ & Hfind & Hsound).
  fold collected in Hfind, Hsound.
  assert (H : PaginateElements.byIndex collected !! 1 = Some (Sample.span "1" 900))
    by (rewrite Hfind; reflexivity).
  split; [exact H|].
  destruct (Hsound _ H) as (Hin & _ & _ & Hkey). split; assumption.
Defined.

(** ** Saving and restoring the reading position *)

Lemma storage_key_inj (a b : string) :
  (Storage.STORAGE_PREFIX +:+ a)%string = (Storage.STORAGE_PREFIX +:+ b)%string ->
  a = b.
Proof.
  generalize Storage.STORAGE_PREFIX. intros prefix.
  induction prefix as [|c prefix IH]; simpl; [trivial|].
  intros [= E]. now apply IH.
Qed.

Lemma storage_key_inj_gen (prefix a b : string) :
  (prefix +:+ a)%string = (prefix +:+ b)%string -> a = b.
Proof.
  induction prefix as [|c prefix IH]; simpl; [trivial|].
  intros [= E]. now apply IH.
Qed.

Lemma restore_after_persist
    (JSON_parse : string -> option Storage.JsValue)
    (JSON_stringify : Storage.ReadingState -> string)
    (localStorage : gmap string string) (docId : string)
    (state : Storage.ReadingState) :
  Storage.parsesBack JSON_parse JSON_stringify state ->
  Storage.restoreReadingState JSON_parse
    (Storage.persistReadingState JSON_stringify true localStorage docId state)
    docId = Some state.
Proof.
  intros (Hne & entries & Hparse & Hpage & Hfont).
  unfold Storage.restoreReadingState, Storage.persistReadingState. cbv zeta.
  rewrite lookup_insert_eq.
  destruct (String.eqb_spec (JSON_stringify state) "") as [E|_]; [contradiction|].
  rewrite Hparse, Hpage, Hfont. now destruct state.
Qed.

(** X6.  Round trip through the store.  When the write is accepted and the
    host's JSON functions give back the record they were given, restoring a
    document's reading state right after persisting it returns exactly the
    persisted state, whatever the store held before. *)
Theorem persist_restore_round_trip
    (JSON_parse : string -> option Storage.JsValue)
    (JSON_stringify : Storage.ReadingState -> string)
    (localStorage : gmap string string) (docId : string)
    (state : Storage.ReadingState) :
  Storage.parsesBack JSON_parse JSON_stringify state ->
  Storage.restoreReadingState JSON_parse
    (Storage.persistReadingState JSON_stringify true localStorage docId state)
    docId = Some state.
Proof. apply restore_after_persist. Qed.

Lemma persist_restore_round_trip_witness :
  let parse := Sample.parseOnly Sample.storedText (Sample.storedRecord 3 20) in
  let state := {| Storage.pageIndex := 3; Storage.fontSizePx := 20 |} in
  Storage.parsesBack parse Sample.stringifyFixed state /\
  Storage.restoreReadingState parse
    (Storage.persistReadingState Sample.stringifyFixed true ∅ "url:b.pdf" state)
    "url:b.pdf" = Some state.
Proof.
  intros parse state.
  assert (H : Storage.parsesBack parse Sample.stringifyFixed state).
  { split; [discriminate|]. eexists. repeat split; reflexivity. }
  split; [exact H|].
  exact (persist_restore_round_trip parse Sample.stringifyFixed ∅ "url:b.pdf"
           state H).
Defined.

(** X7.  Persisting the state of one document never changes what is
    restored for another, and a write the host refuses changes nothing at
    all: the store is as it was, for every document. *)
Theorem persist_touches_one_document
    (JSON_parse : string -> option Storage.JsValue)
    (JSON_stringify : Storage.ReadingState -> string)
    (writeOk : bool) (localStorage : gmap string string)
    (docId other : string) (state : Storage.ReadingState) :
  (other <> docId ->
   Storage.restoreReadingState JSON_parse
     (Storage.persistReadingState JSON_stringify writeOk localStorage docId state)
     other =
   Storage.restoreReadingState JSON_parse localStorage other) /\
  (writeOk = false ->
   Storage.persistReadingState JSON_stringify writeOk localStorage docId state =
   localStorage).
Proof.
  split.
  - intros Hne. unfold Storage.restoreReadingState, Storage.persistReadingState.
    cbv zeta. destruct writeOk; [|reflexivity].
    rewrite lookup_insert_ne; [reflexivity|].
    intros E. apply storage_key_inj in E. congruence.
  - intros ->. reflexivity.
Qed.

Lemma persist_touches_one_document_witness :
  let parse := Sample.parseOnly Sample.storedText (Sample.storedRecord 3 20) in
  let state := {| Storage.pageIndex := 5; Storage.fontSizePx := 16 |} in
  "url:a.pdf"%string <> "url:b.pdf"%string /\
  Storage.restoreReadingState parse
    (Storage.persistReadingState (fun _ => "other"%string) true
       (Sample.storeFor "url:a.pdf") "url:b.pdf" state)
    "url:a.pdf" =
  Some {| Storage.pageIndex := 3; Storage.fontSizePx := 20 |}.
Proof.
  intros parse state.
  assert (Hne : "url:a.pdf"%string <> "url:b.pdf"%string) by discriminate.
  split; [exact Hne|].
  destruct (persist_touches_one_document parse (fun _ => "other"%string) true
              (Sample.storeFor "url:a.pdf") "url:b.pdf" "url:a.pdf" state)
    as [H _].
  rewrite (H Hne). reflexivity.
Defined.

(** Scenario E: a record whose [fontSizePx] is a string is not restored, and
    the load falls back to the default font size and page 0. *)
Example restore_rejects_string_font :
  let parse := Sample.parseOnly Sample.storedText
                 (Storage.JsObject
                    [("pageIndex"%string, Storage.JsNumber 2);
                     ("fontSizePx"%string, Storage.JsString "18")]) in
  let store := Sample.storeFor "url:b.pdf" in
  let s := App.handleLoadSettled parse store App.initialState
             (App.Fulfilled Sample.resultB) in
  Storage.restoreReadingState parse store "url:b.pdf" = None /\
  App.fontSize s = App.DEFAULT_FONT_SIZE /\
  App.pendingPageRef s = Some 0.
Proof. repeat split; reflexivity. Qed.



(** *** Navigation *)

Lemma Qfloor_unique (x : Q) (p : Z) :
  (inject_Z p <= x)%Q -> (x < inject_Z (p + 1))%Q -> Qfloor x = p.
Proof.
  intros Hlo Hhi.
  pose proof (Qfloor_le x) as Hlo'. pose proof (Qlt_floor x) as Hhi'.
  assert (H1 : (inject_Z p < inject_Z (Qfloor x + 1))%Q) by lra.
  assert (H2 : (inject_Z (Qfloor x) < inject_Z (p + 1))%Q) by lra.
  rewrite <- Zlt_Qlt in H1, H2. lia.
Qed.

(** [Math.round] of an exact multiple of the width, divided by the width. *)
Lemma round_exact_multiple (c w : Z) :
  0 < w -> Qfloor (inject_Z (c * w) / inject_Z w + (1 # 2))%Q = c.
Proof.
  intros Hw.
  assert (Hne : ~ (inject_Z w == 0)%Q) by (unfold Qeq; simpl; lia).
  assert (E : (inject_Z (c * w) / inject_Z w == inject_Z c)%Q)
    by (rewrite inject_Z_mult; field; exact Hne).
  apply Qfloor_unique; rewrite E; [lra|].
  rewrite inject_Z_plus. change (inject_Z 1) with 1%Q. lra.
Qed.

(** X10.  Navigation round trip.  In a viewport at least 1 wide, when
    [scrollToPage(index)] is carried out in full, the scroll listener's next
    frame sets the page index to max(0, min(index, pageCount-1)): the page
    that was asked for, clamped, whatever page was current before. *)
Theorem scroll_then_frame_selects_page (viewport : HTMLElement)
    (s : App.AppState) (index targetLeft : Z) :
  1 <= clientWidth viewport ->
  1 <= App.pageCount s ->
  App.scrollToPage (Some viewport) s index = Some targetLeft ->
  App.pageIndex (App.onScrollFrame (App.scrolledTo viewport targetLeft) s) =
  Spec.clampPage index (App.pageCount s).
Proof.
  intros Hw Hcount Hscroll.
  unfold App.scrollToPage in Hscroll. injection Hscroll as <-.
  rewrite Z.max_r in * by lia. rewrite clamp_clampPage by exact Hcount.
  pose proof (clampPage_range index (App.pageCount s) Hcount) as Hrange.
  set (c := Spec.clampPage index (App.pageCount s)) in *.
  unfold App.onScrollFrame, App.scrolledTo. cbv zeta.
  cbn [App.pageIndex scrollLeft clientWidth].
  rewrite (Z.max_r 1 (clientWidth viewport)) by lia.
  rewrite round_exact_multiple by lia.
  destruct (Z.eqb_spec (App.pageIndex s) c) as [E|_]; [exact E|].
  rewrite Z.max_r by lia. unfold JS.clamp. lia.
Qed.

Lemma scroll_then_frame_selects_page_witness :
  let s := fst (App.settle (Some Sample.viewport800) (Some Sample.flow2400)
                  Sample.reading) in
  App.pageCount s = 3 /\
  App.handleNext (Some Sample.viewport800) s = Some 1600 /\
  App.pageIndex (App.onScrollFrame (App.scrolledTo Sample.viewport800 1600) s) = 2.
Proof.
  intros s. split; [reflexivity|]. split; [reflexivity|].
  rewrite (scroll_then_frame_selects_page Sample.viewport800 s 2 1600);
    [reflexivity| simpl; lia | vm_compute; discriminate | reflexivity].
Defined.

(** X11.  The scroll listener keeps the page index in range: if the page
    count is at least 1 and the page index lies in [0, pageCount-1], it still
    does after any scroll frame, wherever the viewport is scrolled to; the
    frame changes nothing but the page index. *)
Theorem scroll_frame_keeps_range (viewport : HTMLElement) (s : App.AppState) :
  1 <= App.pageCount s ->
  0 <= App.pageIndex s <= App.pageCount s - 1 ->
  let s' := App.onScrollFrame viewport s in
  0 <= App.pageIndex s' <= App.pageCount s' - 1 /\
  App.pageCount s' = App.pageCount s /\
  App.tokens s' = App.tokens s /\
  App.fontSize s' = App.fontSize s /\
  App.anchorTokenRef s' = App.anchorTokenRef s /\
  App.pendingPageRef s' = App.pendingPageRef s.
Proof.
  intros Hcount Hrange s'. subst s'. unfold App.onScrollFrame. simpl.
  repeat split; try reflexivity;
    destruct (_ =? _); unfold JS.clamp; lia.
Qed.

Lemma scroll_frame_keeps_range_witness :
  let s' := App.onScrollFrame (App.scrolledTo Sample.viewport800 5000)
              Sample.reading in
  1 <= App.pageCount Sample.reading /\
  0 <= App.pageIndex s' <= App.pageCount s' - 1.
Proof.
  intros s'. split; [simpl; lia|].
  apply (scroll_frame_keeps_range (App.scrolledTo Sample.viewport800 5000)
           Sample.reading); simpl; lia.
Defined.

(** ** pdf.ts: words, paragraphs and token indices *)

Section TextFacts.

Variable isSpace : ascii -> bool.

Lemma splitRuns_not_nil (sep : ascii -> bool) (inRun : bool) (s : string) :
  PdfText.splitRuns sep inRun s <> [].
Proof.
  revert inRun. induction s as [|c s IH]; intros inRun; simpl; [discriminate|].
  destruct (sep c).
  - destruct inRun; [apply IH|discriminate].
  - specialize (IH false). destruct (PdfText.splitRuns sep false s);
      [contradiction|discriminate].
Qed.

(** No piece of a split holds a separator. *)
Lemma splitRuns_noneOf (sep : ascii -> bool) (inRun : bool) (s : string) :
  List.Forall (fun w => PdfText.noneOf sep w = true) (PdfText.splitRuns sep inRun s).
Proof.
  revert inRun. induction s as [|c s IH]; intros inRun; simpl.
  - repeat constructor.
  - destruct (sep c) eqn:Hc.
    + destruct inRun; [apply IH|]. constructor; [reflexivity|apply IH].
    + specialize (IH false). unfold PdfText.attach.
      destruct (PdfText.splitRuns sep false s) as [|w ws].
      * constructor; [simpl; now rewrite Hc|constructor].
      * inversion IH as [|? ? Hw Hws]; subst.
        constructor; [simpl; now rewrite Hc, Hw|exact Hws].
Qed.

Lemma words_shape (s : string) :
  List.Forall (fun w => w <> EmptyString /\ PdfText.noneOf isSpace w = true)
    (PdfText.words isSpace s).
Proof.
  unfold PdfText.words, PdfText.filterBoolean, PdfText.split.
  pose proof (splitRuns_noneOf isSpace false s) as H.
  induction H as [|w ws Hw _ IH]; simpl; [constructor|].
  destruct (String.eqb_spec w "") as [E|Hne]; simpl; [exact IH|].
  constructor; [split; assumption|exact IH].
Qed.

Lemma numberWords_app (i : Z) (a b : list string) :
  PdfText.numberWords i (a ++ b) =
  PdfText.numberWords i a ++ PdfText.numberWords (i + Z.of_nat (length a)) b.
Proof.
  revert i. induction a as [|w a IH]; intros i; simpl.
  - now rewrite Z.add_0_r.
  - rewrite IH. do 3 f_equal. lia.
Qed.

Lemma numberWords_length (i : Z) (ws : list string) :
  length (PdfText.numberWords i ws) = length ws.
Proof. revert i. induction ws as [|w ws IH]; intros i; simpl; [|rewrite IH]; reflexivity. Qed.

Lemma numberWords_text (i : Z) (ws : list string) :
  List.map Pdf.text (PdfText.numberWords i ws) = ws.
Proof. revert i. induction ws as [|w ws IH]; intros i; simpl; [|rewrite IH]; reflexivity. Qed.

Lemma numberWords_idx (i : Z) (ws : list string) :
  List.map Pdf.idx (PdfText.numberWords i ws) =
  List.map (fun k => i + Z.of_nat k) (List.seq 0 (length ws)).
Proof.
  revert i. induction ws as [|w ws IH]; intros i; simpl; [reflexivity|].
  rewrite Z.add_0_r. f_equal.
  rewrite IH, <- List.seq_shift, List.map_map.
  apply List.map_ext. intros k. lia.
Qed.

(** The loop of [buildParagraphs] in closed form: it appends the words of
    the remaining paragraphs, numbered on from [nextIndex]. *)
Lemma buildLoop_tokens (startIndex paragraphIndex : Z) (acc : PdfText.Built)
    (ps : list string) :
  let b := PdfText.buildLoop isSpace startIndex paragraphIndex acc ps in
  let ws := List.flat_map (PdfText.words isSpace) ps in
  PdfText.tokens b =
    PdfText.tokens acc ++ PdfText.numberWords (PdfText.nextIndex acc) ws /\
  PdfText.nextIndex b = PdfText.nextIndex acc + Z.of_nat (length ws).
Proof.
  revert paragraphIndex acc. induction ps as [|paragraph ps IH];
    intros paragraphIndex acc; simpl.
  - rewrite List.app_nil_r. split; [reflexivity|lia].
  - destruct (PdfText.words isSpace paragraph) as [|w ws] eqn:Hw.
    + apply IH.
    + destruct (IH (paragraphIndex + 1)
                  {| PdfText.paragraphs := PdfText.paragraphs acc ++
                       [ {| Pdf.id := ("p-" +:+ JS.toString paragraphIndex +:+ "-"
                                       +:+ JS.toString startIndex)%string;
                            Pdf.tokens := PdfText.numberWords (PdfText.nextIndex acc)
                                            (w :: ws) |} ];
                     PdfText.tokens := PdfText.tokens acc ++
                       PdfText.numberWords (PdfText.nextIndex acc) (w :: ws);
                     PdfText.nextIndex := PdfText.nextIndex acc +
                       Z.of_nat (length (w :: ws)) |}) as [Ht Hn].
      cbv zeta in Ht, Hn. rewrite Ht, Hn.
      cbn [PdfText.tokens PdfText.nextIndex].
      split.
      * rewrite <- List.app_assoc. f_equal.
        change (w :: ws ++ List.flat_map (PdfText.words isSpace) ps)
          with ((w :: ws) ++ List.flat_map (PdfText.words isSpace) ps).
        now rewrite numberWords_app.
      * change (w :: ws ++ List.flat_map (PdfText.words isSpace) ps)
          with ((w :: ws) ++ List.flat_map (PdfText.words isSpace) ps).
        rewrite List.length_app. lia.
Qed.

(** The paragraphs built hold the tokens built, in order, and none of the
    paragraphs added is empty. *)
Lemma buildLoop_paragraphs (startIndex paragraphIndex : Z) (acc : PdfText.Built)
    (ps : list string) :
  let b := PdfText.buildLoop isSpace startIndex paragraphIndex acc ps in
  List.concat (List.map Pdf.tokens (PdfText.paragraphs acc)) = PdfText.tokens acc ->
  List.Forall (fun p => Pdf.tokens p <> []) (PdfText.paragraphs acc) ->
  List.concat (List.map Pdf.tokens (PdfText.paragraphs b)) = PdfText.tokens b /\
  List.Forall (fun p => Pdf.tokens p <> []) (PdfText.paragraphs b).
Proof.
  revert paragraphIndex acc. induction ps as [|paragraph ps IH];
    intros paragraphIndex acc; simpl; intros Hc Hne.
  - split; assumption.
  - destruct (PdfText.words isSpace paragraph) as [|w ws] eqn:Hw.
    + now apply IH.
    + apply IH; cbn [PdfText.paragraphs PdfText.tokens].
      * rewrite List.map_app, List.concat_app, Hc. simpl.
        now rewrite List.app_nil_r.
      * apply List.Forall_app. split; [exact Hne|].
        constructor; [simpl; discriminate|constructor].
Qed.

(** X12.  [buildParagraphs] numbers the words of its paragraphs
    consecutively from [startIndex]: the tokens are the words of all
    paragraph strings in order, with indices startIndex, startIndex+1, ...,
    and [nextIndex] is the first unused index.  The paragraphs returned hold
    exactly those tokens, in order and without overlap; none of them is
    empty; and every token text is non-empty and free of white space. *)
Theorem buildParagraphs_numbering (paragraphStrings : list string) (startIndex : Z) :
  let b := PdfText.buildParagraphs isSpace paragraphStrings startIndex in
  let n := length (PdfText.tokens b) in
  List.map Pdf.text (PdfText.tokens b) =
    List.flat_map (PdfText.words isSpace) paragraphStrings /\
  List.map Pdf.idx (PdfText.tokens b) =
    List.map (fun k => startIndex + Z.of_nat k) (List.seq 0 n) /\
  PdfText.nextIndex b = startIndex + Z.of_nat n /\
  List.concat (List.map Pdf.tokens (PdfText.paragraphs b)) = PdfText.tokens b /\
  List.Forall (fun p => Pdf.tokens p <> []) (PdfText.paragraphs b) /\
  List.Forall (fun t => Pdf.text t <> EmptyString /\
                        PdfText.noneOf isSpace (Pdf.text t) = true)
    (PdfText.tokens b).
Proof.
  intros b n. subst n b. unfold PdfText.buildParagraphs.
  destruct (buildLoop_tokens startIndex 0
              {| PdfText.paragraphs := []; PdfText.tokens := [];
                 PdfText.nextIndex := startIndex |} paragraphStrings) as [Ht Hn].
  destruct (buildLoop_paragraphs startIndex 0
              {| PdfText.paragraphs := []; PdfText.tokens := [];
                 PdfText.nextIndex := startIndex |} paragraphStrings
              eq_refl (List.Forall_nil _)) as [Hc Hne].
  cbv zeta in *. cbn [PdfText.tokens PdfText.nextIndex List.app] in Ht, Hn.
  rewrite Hn, Ht, numberWords_length, numberWords_text, numberWords_idx.
  repeat split; try reflexivity.
  - rewrite Hc, Ht. reflexivity.
  - exact Hne.
  - apply List.Forall_forall. intros t Hin.
    assert (Hw : In (Pdf.text t)
                   (List.flat_map (PdfText.words isSpace) paragraphStrings)).
    { rewrite <- (numberWords_text startIndex). now apply List.in_map. }
    apply List.in_flat_map in Hw as (paragraph & _ & Hw).
    pose proof (words_shape paragraph) as Hshape.
    rewrite List.Forall_forall in Hshape. now apply Hshape.
Qed.

End TextFacts.

Section WordFacts.

Variable isSpace : ascii -> bool.

(** The blank is one of the characters [\s] matches. *)
Hypothesis blank_is_space : isSpace " " = true.

Lemma filterBoolean_attach (c : ascii) (l : list string) :
  PdfText.filterBoolean (PdfText.attach c l) =
  match l with
  | w :: ws => String c w :: PdfText.filterBoolean ws
  | [] => [String c EmptyString]
  end.
Proof. destruct l; reflexivity. Qed.

Lemma words_in_run (s : string) :
  PdfText.filterBoolean (PdfText.splitRuns isSpace true s) = PdfText.words isSpace s.
Proof.
  unfold PdfText.words, PdfText.split. destruct s as [|c s]; simpl; [reflexivity|].
  now destruct (isSpace c).
Qed.

Lemma words_cons_space (c : ascii) (s : string) :
  isSpace c = true -> PdfText.words isSpace (String c s) = PdfText.words isSpace s.
Proof.
  intros Hc. unfold PdfText.words at 1, PdfText.split. simpl. rewrite Hc. simpl.
  apply words_in_run.
Qed.

Lemma words_empty : PdfText.words isSpace EmptyString = [].
Proof. reflexivity. Qed.

(** Appending a separator and more text leaves the first piece alone and
    adds the words of the text. *)
Lemma split_append_space (a b : string) (sp : ascii) :
  isSpace sp = true ->
  PdfText.words isSpace (a +:+ String sp b) =
    PdfText.words isSpace a ++ PdfText.words isSpace b /\
  exists w ws ws',
    PdfText.splitRuns isSpace false a = w :: ws /\
    PdfText.splitRuns isSpace false (a +:+ String sp b) = w :: ws' /\
    PdfText.filterBoolean ws' =
      PdfText.filterBoolean ws ++ PdfText.words isSpace b.
Proof.
  intros Hsp. induction a as [|c a [IHw (w & ws & ws' & Ha & Hab & Hf)]].
  - split.
    + change (EmptyString +:+ String sp b)%string with (String sp b).
      now rewrite words_cons_space.
    + exists EmptyString, [], (PdfText.splitRuns isSpace true b).
      simpl. rewrite Hsp. repeat split. apply words_in_run.
  - destruct (isSpace c) eqn:Hc.
    + split.
      * change (String c a +:+ String sp b)%string with (String c (a +:+ String sp b)).
        now rewrite !words_cons_space.
      * exists EmptyString, (PdfText.splitRuns isSpace true a),
          (PdfText.splitRuns isSpace true (a +:+ String sp b)).
        simpl. rewrite Hc. repeat split.
        now rewrite !words_in_run.
    + assert (G : PdfText.splitRuns isSpace false (String c a) = String c w :: ws /\
                  PdfText.splitRuns isSpace false (String c a +:+ String sp b) =
                    String c w :: ws').
      { simpl. rewrite Hc. simpl in Hab. now rewrite Ha, Hab. }
      destruct G as [G1 G2]. split.
      * unfold PdfText.words, PdfText.split. rewrite G1, G2. simpl.
        now rewrite Hf.
      * exists (String c w), ws, ws'. repeat split; assumption.
Qed.

Lemma words_append_space (a b : string) (sp : ascii) :
  isSpace sp = true ->
  PdfText.words isSpace (a +:+ String sp b) =
  PdfText.words isSpace a ++ PdfText.words isSpace b.
Proof. intros Hsp. now apply split_append_space. Qed.

Lemma words_join (l : list string) :
  PdfText.words isSpace (PdfText.join " " l) =
  List.flat_map (PdfText.words isSpace) l.
Proof.
  induction l as [|x [|y rest] IH].
  - reflexivity.
  - simpl. now rewrite List.app_nil_r.
  - change (PdfText.join " " (x :: y :: rest))
      with (x +:+ String " " (PdfText.join " " (y :: rest)))%string.
    rewrite words_append_space by exact blank_is_space.
    now rewrite IH.
Qed.

(** Collapsing the runs does not change how the string splits. *)
Lemma splitRuns_replaceRuns (inRun : bool) (s : string) :
  PdfText.splitRuns isSpace inRun (PdfText.replaceRuns isSpace inRun s) =
  PdfText.splitRuns isSpace inRun s.
Proof.
  revert inRun. induction s as [|c s IH]; intros inRun; simpl; [reflexivity|].
  destruct (isSpace c) eqn:Hc.
  - destruct inRun; [apply IH|]. simpl. rewrite blank_is_space. now rewrite IH.
  - simpl. rewrite Hc. now rewrite IH.
Qed.

Lemma words_replaceSpaces (s : string) :
  PdfText.words isSpace (PdfText.replaceSpaces isSpace s) = PdfText.words isSpace s.
Proof.
  unfold PdfText.words, PdfText.split, PdfText.replaceSpaces.
  now rewrite splitRuns_replaceRuns.
Qed.

Lemma words_trimStart (s : string) :
  PdfText.words isSpace (PdfText.trimStart isSpace s) = PdfText.words isSpace s.
Proof.
  induction s as [|c s IH]; simpl; [reflexivity|].
  destruct (isSpace c) eqn:Hc; [|reflexivity].
  now rewrite IH, words_cons_space.
Qed.

Lemma trimEnd_cons (c : ascii) (s : string) :
  PdfText.trimEnd isSpace (String c s) =
  if isSpace c && String.eqb (PdfText.trimEnd isSpace s) ""
  then EmptyString else String c (PdfText.trimEnd isSpace s).
Proof.
  simpl. destruct (PdfText.trimEnd isSpace s); simpl;
    destruct (isSpace c); reflexivity.
Qed.

Lemma split_trimEnd (s : string) :
  PdfText.words isSpace (PdfText.trimEnd isSpace s) = PdfText.words isSpace s /\
  exists w ws ws',
    PdfText.splitRuns isSpace false s = w :: ws /\
    PdfText.splitRuns isSpace false (PdfText.trimEnd isSpace s) = w :: ws' /\
    PdfText.filterBoolean ws' = PdfText.filterBoolean ws.
Proof.
  induction s as [|c s [IHw (w & ws & ws' & Hs & Ht & Hf)]].
  - split; [reflexivity|]. exists EmptyString, [], []. repeat split.
  - rewrite trimEnd_cons. destruct (isSpace c) eqn:Hc; simpl andb.
    + destruct (String.eqb_spec (PdfText.trimEnd isSpace s) "") as [E|Hne].
      * rewrite E in IHw. split.
        -- now rewrite words_cons_space, <- IHw.
        -- exists EmptyString, (PdfText.splitRuns isSpace true s), [].
           simpl. rewrite Hc. repeat split.
           now rewrite words_in_run, <- IHw.
      * split.
        -- now rewrite !words_cons_space.
        -- exists EmptyString, (PdfText.splitRuns isSpace true s),
             (PdfText.splitRuns isSpace true (PdfText.trimEnd isSpace s)).
           simpl. rewrite Hc. repeat split. now rewrite !words_in_run.
    + assert (G : PdfText.splitRuns isSpace false (String c s) = String c w :: ws /\
                  PdfText.splitRuns isSpace false
                    (String c (PdfText.trimEnd isSpace s)) = String c w :: ws').
      { simpl. rewrite Hc. now rewrite Hs, Ht. }
      destruct G as [G1 G2]. split.
      * unfold PdfText.words, PdfText.split. rewrite G1, G2. simpl.
        now rewrite Hf.
      * exists (String c w), ws, ws'. repeat split; assumption.
Qed.

Lemma words_trim (s : string) :
  PdfText.words isSpace (PdfText.trim isSpace s) = PdfText.words isSpace s.
Proof.
  unfold PdfText.trim.
  rewrite (proj1 (split_trimEnd _)). apply words_trimStart.
Qed.

Lemma words_normalizeSpaces (s : string) :
  PdfText.words isSpace (PdfText.normalizeSpaces isSpace s) = PdfText.words isSpace s.
Proof.
  unfold PdfText.normalizeSpaces. now rewrite words_trim, words_replaceSpaces.
Qed.

End WordFacts.

Section ExtractionFacts.

Variable isSpace : ascii -> bool.

Hypothesis blank_is_space : isSpace " " = true.

(** The line feed is one of the characters [\s] matches. *)
Hypothesis newline_is_space : isSpace PdfText.LF = true.

Lemma isNewline_isSpace (c : ascii) :
  PdfText.isNewline c = true -> isSpace c = true.
Proof.
  unfold PdfText.isNewline. intros H. apply Ascii.eqb_eq in H. now subst.
Qed.

(** Splitting at line breaks first and into words afterwards gives the
    words of the whole string. *)
Lemma split_newline_words (s : string) :
  (forall inRun,
     List.flat_map (PdfText.words isSpace)
       (PdfText.splitRuns PdfText.isNewline inRun s) = PdfText.words isSpace s) /\
  exists w ws h t t0,
    PdfText.splitRuns PdfText.isNewline false s = w :: ws /\
    PdfText.splitRuns isSpace false s = h :: t /\
    PdfText.splitRuns isSpace false w = h :: t0 /\
    PdfText.filterBoolean t =
      PdfText.filterBoolean t0 ++ List.flat_map (PdfText.words isSpace) ws.
Proof.
  induction s as [|c s [IHc (w & ws & h & t & t0 & Hn & Hs & Hw & Hf)]].
  - split; [intros inRun; reflexivity|].
    exists EmptyString, [], EmptyString, [], []. repeat split.
  - assert (Hall : List.flat_map (PdfText.words isSpace) (w :: ws) =
                   PdfText.words isSpace s) by (rewrite <- Hn; apply IHc).
    destruct (PdfText.isNewline c) eqn:Hnl.
    + pose proof (isNewline_isSpace c Hnl) as Hc. split.
      * intros inRun. simpl. rewrite Hnl, words_cons_space by exact Hc.
        destruct inRun; [apply IHc|].
        cbn [List.flat_map]. rewrite words_empty. apply IHc.
      * exists EmptyString, (PdfText.splitRuns PdfText.isNewline true s),
          EmptyString, (PdfText.splitRuns isSpace true s), [].
        simpl. rewrite Hnl, Hc. repeat split.
        now rewrite words_in_run, (IHc true).
    + destruct (isSpace c) eqn:Hc.
      * split.
        -- intros inRun. simpl. rewrite Hnl, Hn. cbn [PdfText.attach List.flat_map].
           rewrite !words_cons_space by exact Hc. exact Hall.
        -- exists (String c w), ws, EmptyString,
             (PdfText.splitRuns isSpace true s), (PdfText.splitRuns isSpace true w).
           simpl. rewrite Hnl, Hc, Hn. repeat split.
           rewrite !words_in_run. now rewrite <- Hall.
      * assert (G : PdfText.splitRuns isSpace false (String c s) = String c h :: t /\
                    PdfText.splitRuns isSpace false (String c w) = String c h :: t0).
        { simpl. rewrite Hc. now rewrite Hs, Hw. }
        destruct G as [G1 G2]. split.
        -- intros inRun. simpl PdfText.splitRuns at 1. rewrite Hnl, Hn.
           cbn [PdfText.attach List.flat_map].
           unfold PdfText.words at 1 3, PdfText.split. rewrite G1, G2. simpl.
           now rewrite Hf.
        -- exists (String c w), ws, (String c h), t, t0.
           simpl PdfText.splitRuns at 1. rewrite Hnl, Hn. repeat split; assumption.
Qed.

Lemma flat_map_words_filterBoolean (l : list string) :
  List.flat_map (PdfText.words isSpace) (PdfText.filterBoolean l) =
  List.flat_map (PdfText.words isSpace) l.
Proof.
  induction l as [|x l IH]; simpl; [reflexivity|].
  destruct (String.eqb_spec x "") as [->|_]; simpl; now rewrite IH.
Qed.

Lemma chunks_fold (items : list PdfText.TextItem) (chunks : list string) :
  List.fold_left (fun chunks item => chunks ++ PdfText.itemChunks isSpace item)
    items chunks =
  chunks ++ List.flat_map (PdfText.itemChunks isSpace) items.
Proof.
  revert chunks. induction items as [|item items IH]; intros chunks; simpl.
  - now rewrite List.app_nil_r.
  - now rewrite IH, List.app_assoc.
Qed.

Lemma words_itemChunks (item : PdfText.TextItem) :
  List.flat_map (PdfText.words isSpace) (PdfText.itemChunks isSpace item) =
  match PdfText.str item with
  | Some text => PdfText.words isSpace text
  | None => []
  end.
Proof.
  unfold PdfText.itemChunks. destruct (PdfText.str item) as [text|]; [|reflexivity].
  cbv zeta. rewrite List.flat_map_app.
  assert (E : List.flat_map (PdfText.words isSpace)
                (if PdfText.hasEOL item then [String PdfText.LF EmptyString] else [])
              = []).
  { destruct (PdfText.hasEOL item); [|reflexivity]. simpl.
    now rewrite words_cons_space. }
  rewrite E, List.app_nil_r.
  destruct (String.eqb_spec (PdfText.normalizeSpaces isSpace text) "") as [E'|_].
  - simpl. rewrite <- (words_normalizeSpaces isSpace blank_is_space text).
    now rewrite E'.
  - simpl. rewrite List.app_nil_r.
    now apply words_normalizeSpaces.
Qed.

Lemma words_nil_trim (s : string) :
  PdfText.words isSpace s = [] -> PdfText.trim isSpace s = EmptyString.
Proof.
  intros H. unfold PdfText.trim.
  assert (E : PdfText.trimStart isSpace s = EmptyString); [|now rewrite E].
  induction s as [|c s IH]; simpl; [reflexivity|].
  destruct (isSpace c) eqn:Hc.
  - apply IH. now rewrite words_cons_space in H.
  - exfalso. unfold PdfText.words, PdfText.split in H. simpl in H.
    rewrite Hc, filterBoolean_attach in H.
    destruct (PdfText.splitRuns isSpace false s); discriminate.
Qed.

Lemma normalizeTextContent_flat_words (items : list PdfText.TextItem) :
  List.flat_map (PdfText.words isSpace) (PdfText.normalizeTextContent isSpace items) =
    List.flat_map
      (fun item => match PdfText.str item with
                   | Some text => PdfText.words isSpace text
                   | None => []
                   end) items.
Proof.
  unfold PdfText.normalizeTextContent. cbv zeta.
  rewrite flat_map_words_filterBoolean, List.flat_map_concat_map, List.map_map.
  rewrite (List.map_ext _ (PdfText.words isSpace))
    by (intros p; now apply words_normalizeSpaces).
  rewrite <- List.flat_map_concat_map.
  unfold PdfText.split. rewrite (proj1 (split_newline_words _) false).
  rewrite words_join by exact blank_is_space.
  rewrite chunks_fold. simpl.
  induction items as [|item items IH]; simpl; [reflexivity|].
  now rewrite List.flat_map_app, words_itemChunks, IH.
Qed.

(** X13.  [normalizeTextContent] keeps the words.  When blank and line feed
    are white space, the words of the paragraph strings it returns, taken in
    order, are exactly the words of the items' strings in order; items
    without a string contribute nothing; no word is lost, added, split or
    merged by the clean-up and the split at line breaks.  Every paragraph
    string returned is non-empty and contains at least one word. *)
Theorem normalizeTextContent_words (items : list PdfText.TextItem) :
  List.flat_map (PdfText.words isSpace) (PdfText.normalizeTextContent isSpace items) =
    List.flat_map
      (fun item => match PdfText.str item with
                   | Some text => PdfText.words isSpace text
                   | None => []
                   end) items /\
  List.Forall (fun paragraph => paragraph <> EmptyString /\
                                PdfText.words isSpace paragraph <> [])
    (PdfText.normalizeTextContent isSpace items).
Proof.
  split; [apply normalizeTextContent_flat_words|].
  unfold PdfText.normalizeTextContent. cbv zeta.
  apply List.Forall_forall. intros p Hin.
  unfold PdfText.filterBoolean in Hin. apply List.filter_In in Hin as [Hin Hne].
  destruct (String.eqb_spec p "") as [E|Hp]; [discriminate|].
  split; [exact Hp|].
  apply List.in_map_iff in Hin as (q & <- & _).
  intros Hw. apply Hp.
  rewrite (words_normalizeSpaces isSpace blank_is_space) in Hw.
  rewrite <- (words_replaceSpaces isSpace blank_is_space) in Hw.
  now apply words_nil_trim.
Qed.

End ExtractionFacts.

Lemma normalizeTextContent_words_witness :
  PdfText.asciiSpace " " = true /\
  PdfText.asciiSpace PdfText.LF = true /\
  PdfText.normalizeTextContent PdfText.asciiSpace SampleText.pageOne =
    ["Hello world again"%string; "next"%string] /\
  List.flat_map (PdfText.words PdfText.asciiSpace)
    (PdfText.normalizeTextContent PdfText.asciiSpace SampleText.pageOne) =
    ["Hello"%string; "world"%string; "again"%string; "next"%string].
Proof.
  split; [reflexivity|]. split; [reflexivity|]. split; [reflexivity|].
  rewrite (proj1 (normalizeTextContent_words PdfText.asciiSpace
                    eq_refl eq_refl SampleText.pageOne)).
  reflexivity.
Defined.

(** *** The whole document *)

Lemma range_NoDup (i : Z) (a n : nat) :
  List.NoDup (List.map (fun k => i + Z.of_nat k) (List.seq a n)).
Proof.
  revert a. induction n as [|n IH]; intros a; simpl; constructor; [|apply IH].
  intros Hin. apply List.in_map_iff in Hin as (k & Hk & Hin).
  apply List.in_seq in Hin. lia.
Qed.

Section DocumentFacts.

Variable isSpace : ascii -> bool.

Lemma loadStep_fold (pages : list (list PdfText.TextItem)) (acc : PdfText.Built) :
  let all := List.fold_left (PdfText.loadStep isSpace) pages acc in
  let ws := List.flat_map (PdfText.pageWords isSpace) pages in
  (PdfText.tokens all =
     PdfText.tokens acc ++ PdfText.numberWords (PdfText.nextIndex acc) ws /\
   PdfText.nextIndex all = PdfText.nextIndex acc + Z.of_nat (length ws)) /\
  (List.concat (List.map Pdf.tokens (PdfText.paragraphs acc)) = PdfText.tokens acc ->
   List.Forall (fun p => Pdf.tokens p <> []) (PdfText.paragraphs acc) ->
   List.concat (List.map Pdf.tokens (PdfText.paragraphs all)) = PdfText.tokens all /\
   List.Forall (fun p => Pdf.tokens p <> []) (PdfText.paragraphs all)).
Proof.
  revert acc. induction pages as [|items pages IH]; intros acc.
  - simpl. rewrite List.app_nil_r. repeat split; try assumption. lia.
  - cbn [List.fold_left List.flat_map].
    set (built := PdfText.buildParagraphs isSpace
                    (PdfText.normalizeTextContent isSpace items)
                    (PdfText.nextIndex acc)).
    assert (Hb : (PdfText.tokens built =
                    PdfText.numberWords (PdfText.nextIndex acc)
                      (PdfText.pageWords isSpace items) /\
                  PdfText.nextIndex built =
                    PdfText.nextIndex acc +
                    Z.of_nat (length (PdfText.pageWords isSpace items))) /\
                 List.concat (List.map Pdf.tokens (PdfText.paragraphs built)) =
                   PdfText.tokens built /\
                 List.Forall (fun p => Pdf.tokens p <> []) (PdfText.paragraphs built)).
    { split.
      - exact (buildLoop_tokens isSpace (PdfText.nextIndex acc) 0
                 {| PdfText.paragraphs := []; PdfText.tokens := [];
                    PdfText.nextIndex := PdfText.nextIndex acc |}
                 (PdfText.normalizeTextContent isSpace items)).
      - exact (buildLoop_paragraphs isSpace (PdfText.nextIndex acc) 0
                 {| PdfText.paragraphs := []; PdfText.tokens := [];
                    PdfText.nextIndex := PdfText.nextIndex acc |}
                 (PdfText.normalizeTextContent isSpace items)
                 eq_refl (List.Forall_nil _)). }
    destruct Hb as ((Ht & Hn) & Hc & Hne).
    set (acc' := PdfText.loadStep isSpace acc items).
    assert (Ea : PdfText.tokens acc' = PdfText.tokens acc ++ PdfText.tokens built /\
                 PdfText.nextIndex acc' = PdfText.nextIndex built /\
                 PdfText.paragraphs acc' =
                   PdfText.paragraphs acc ++ PdfText.paragraphs built)
      by (repeat split).
    destruct Ea as (Eat & Ean & Eap).
    destruct (IH acc') as [[IHt IHn] IHp]. cbv zeta in IHt, IHn, IHp.
    split; [split|].
    + rewrite IHt, Eat, Ean, Ht, Hn, <- List.app_assoc. f_equal.
      now rewrite numberWords_app.
    + rewrite IHn, Ean, Hn, List.length_app. lia.
    + intros Hacc Hnacc. apply IHp.
      * now rewrite Eap, Eat, List.map_app, List.concat_app, Hacc, Hc.
      * rewrite Eap. apply List.Forall_app. split; assumption.
Qed.

(** X14.  Token indices of a loaded document.  Whatever the pages hold, the
    tokens of the result carry the indices 0, 1, ..., n-1 in reading order,
    so no two tokens share an index; the paragraphs hold exactly the tokens,
    in order and without overlap, and none is empty; every token text is
    non-empty and free of white space; the document id is kind:key; and an
    empty document (no page, or pages without words) has no token. *)
Theorem loadPdf_token_indices (pages : list (list PdfText.TextItem))
    (kind key : string) (title : option string) :
  let result := PdfText.loadPdf isSpace pages kind key title in
  let n := length (LoadResult.tokens result) in
  List.map Pdf.idx (LoadResult.tokens result) = List.map Z.of_nat (List.seq 0 n) /\
  List.NoDup (List.map Pdf.idx (LoadResult.tokens result)) /\
  List.concat (List.map Pdf.tokens (LoadResult.paragraphs result)) =
    LoadResult.tokens result /\
  List.Forall (fun p => Pdf.tokens p <> []) (LoadResult.paragraphs result) /\
  List.Forall (fun t => Pdf.text t <> EmptyString /\
                        PdfText.noneOf isSpace (Pdf.text t) = true)
    (LoadResult.tokens result) /\
  LoadResult.docId result = (kind +:+ ":" +:+ key)%string /\
  (List.flat_map (PdfText.pageWords isSpace) pages = [] ->
   LoadResult.tokens result = []).
Proof.
  intros result n. subst n result. unfold PdfText.loadPdf. cbv zeta.
  cbn [LoadResult.tokens LoadResult.paragraphs LoadResult.docId].
  destruct (loadStep_fold pages
              {| PdfText.paragraphs := []; PdfText.tokens := [];
                 PdfText.nextIndex := 0 |}) as [[Ht _] Hp].
  cbv zeta in Ht, Hp. cbn [PdfText.tokens PdfText.nextIndex PdfText.paragraphs
                           List.app] in Ht, Hp.
  destruct (Hp eq_refl (List.Forall_nil _)) as [Hc Hne].
  rewrite Ht, numberWords_length, numberWords_idx.
  split; [reflexivity|]. split; [apply range_NoDup|].
  split; [now rewrite Hc, Ht|]. split; [exact Hne|].
  split; [|split; [reflexivity|]].
  - apply List.Forall_forall. intros t Hin.
    assert (Hw : In (Pdf.text t) (List.flat_map (PdfText.pageWords isSpace) pages)).
    { rewrite <- (numberWords_text 0). now apply List.in_map. }
    apply List.in_flat_map in Hw as (items & _ & Hw).
    apply List.in_flat_map in Hw as (paragraph & _ & Hw).
    pose proof (words_shape isSpace paragraph) as Hshape.
    rewrite List.Forall_forall in Hshape. now apply Hshape.
  - intros ->. reflexivity.
Qed.

Hypothesis blank_is_space : isSpace " " = true.
Hypothesis newline_is_space : isSpace PdfText.LF = true.

(** X15.  The token stream is the text.  When blank and line feed are white
    space, the texts of the tokens of a loaded document, in index order, are
    exactly the white-space separated words of the strings of all text items,
    page by page and item by item. *)
Theorem loadPdf_token_texts (pages : list (list PdfText.TextItem))
    (kind key : string) (title : option string) :
  List.map Pdf.text (LoadResult.tokens (PdfText.loadPdf isSpace pages kind key title)) =
  List.flat_map
    (fun items =>
       List.flat_map
         (fun item => match PdfText.str item with
                      | Some text => PdfText.words isSpace text
                      | None => []
                      end) items)
    pages.
Proof.
  unfold PdfText.loadPdf. cbv zeta. cbn [LoadResult.tokens].
  destruct (loadStep_fold pages
              {| PdfText.paragraphs := []; PdfText.tokens := [];
                 PdfText.nextIndex := 0 |}) as [[Ht _] _].
  cbv zeta in Ht. cbn [PdfText.tokens PdfText.nextIndex List.app] in Ht.
  rewrite Ht, numberWords_text. clear Ht.
  induction pages as [|items pages IH]; simpl; [reflexivity|].
  rewrite IH. unfold PdfText.pageWords.
  now rewrite (normalizeTextContent_flat_words isSpace blank_is_space
                 newline_is_space).
Qed.

End DocumentFacts.

Lemma loadPdf_token_texts_witness :
  PdfText.asciiSpace " " = true /\
  PdfText.asciiSpace PdfText.LF = true /\
  List.map Pdf.text
    (LoadResult.tokens
       (PdfText.loadPdf PdfText.asciiSpace [SampleText.pageOne; SampleText.pageTwo]
          "url" "b.pdf" None)) =
  ["Hello"%string; "world"%string; "again"%string; "next"%string;
   "last"%string; "one"%string].
Proof.
  split; [reflexivity|]. split; [reflexivity|].
  rewrite (loadPdf_token_texts PdfText.asciiSpace eq_refl eq_refl).
  reflexivity.
Defined.

(** *** Document ids and paragraph ids *)

Lemma noneOf_append_hit (p : ascii -> bool) (a b : string) (c : ascii) :
  p c = true -> PdfText.noneOf p (a +:+ String c b) = false.
Proof.
  intros Hc. induction a as [|x a IH]; simpl.
  - now rewrite Hc.
  - rewrite IH. apply andb_false_r.
Qed.

(** Cutting at the last separator: the parts after it hold none. *)
Lemma append_split_last (p : ascii -> bool) (c : ascii) (a b x y : string) :
  p c = true -> PdfText.noneOf p x = true -> PdfText.noneOf p y = true ->
  (a +:+ String c x)%string = (b +:+ String c y)%string -> a = b /\ x = y.
Proof.
  intros Hc Hx Hy. revert b. induction a as [|u a IH]; intros [|v b]; simpl.
  - intros [= E]. now split.
  - intros [= _ E]. rewrite E, noneOf_append_hit in Hx by exact Hc. discriminate.
  - intros [= _ E]. rewrite <- E, noneOf_append_hit in Hy by exact Hc. discriminate.
  - intros [= -> E]. destruct (IH b E) as [-> ->]. now split.
Qed.

(** Cutting at the first separator: the parts before it hold none. *)
Lemma append_split_first (p : ascii -> bool) (c : ascii) (a b x y : string) :
  p c = true -> PdfText.noneOf p a = true -> PdfText.noneOf p b = true ->
  (a +:+ String c x)%string = (b +:+ String c y)%string -> a = b /\ x = y.
Proof.
  intros Hc. revert b. induction a as [|u a IH]; intros [|v b]; simpl.
  - intros _ _ [= E]. now split.
  - intros _ Hb [= <- _]. rewrite Hc in Hb. discriminate.
  - intros Ha _ [= -> _]. rewrite Hc in Ha. discriminate.
  - intros Ha Hb [= -> E].
    apply andb_true_iff in Ha as [_ Ha]. apply andb_true_iff in Hb as [_ Hb].
    destruct (IH b Ha Hb E) as [-> ->]. now split.
Qed.

Lemma uint_no_colon (d : Decimal.uint) :
  PdfText.noneOf (PdfText.isChar ":") (NilEmpty.string_of_uint d) = true.
Proof. induction d; simpl; try rewrite IHd; reflexivity. Qed.

Lemma uint_no_hyphen (d : Decimal.uint) :
  PdfText.noneOf (PdfText.isChar "-") (NilEmpty.string_of_uint d) = true.
Proof. induction d; simpl; try rewrite IHd; reflexivity. Qed.

Lemma toString_no_colon (z : Z) :
  PdfText.noneOf (PdfText.isChar ":") (JS.toString z) = true.
Proof.
  unfold JS.toString.
  destruct z as [|q|q]; simpl; [reflexivity| |];
    unfold NilZero.string_of_uint;
    pose proof (uint_no_colon (Pos.to_uint q)) as H;
    destruct (Pos.to_uint q); try exact H; reflexivity.
Qed.

Lemma toString_no_hyphen (z : Z) :
  0 <= z -> PdfText.noneOf (PdfText.isChar "-") (JS.toString z) = true.
Proof.
  unfold JS.toString.
  destruct z as [|q|q]; simpl; intros Hz; [reflexivity| |lia].
  unfold NilZero.string_of_uint.
  pose proof (uint_no_hyphen (Pos.to_uint q)) as H.
  destruct (Pos.to_uint q); try exact H; reflexivity.
Qed.

Lemma paragraphId_inj (i i' s s' : Z) :
  0 <= i -> 0 <= i' ->
  PdfText.paragraphId i s = PdfText.paragraphId i' s' -> i = i' /\ s = s'.
Proof.
  intros Hi Hi'. unfold PdfText.paragraphId.
  change ("p-" +:+ JS.toString i +:+ "-" +:+ JS.toString s)%string
    with (String "p" (String "-" (JS.toString i +:+ String "-" (JS.toString s)))).
  change ("p-" +:+ JS.toString i' +:+ "-" +:+ JS.toString s')%string
    with (String "p" (String "-" (JS.toString i' +:+ String "-" (JS.toString s')))).
  intros [= E].
  apply (append_split_first (PdfText.isChar "-")) in E as [Ei Es];
    [|reflexivity|now apply toString_no_hyphen..].
  split; now apply toString_inj.
Qed.

Section IdFacts.

Variable isSpace : ascii -> bool.

Lemma buildLoop_ids (startIndex paragraphIndex : Z) (acc : PdfText.Built)
    (ps : list string) :
  0 <= paragraphIndex ->
  (forall p, In p (PdfText.paragraphs acc) ->
     exists i, 0 <= i < paragraphIndex /\ Pdf.id p = PdfText.paragraphId i startIndex) ->
  List.NoDup (List.map Pdf.id (PdfText.paragraphs acc)) ->
  let b := PdfText.buildLoop isSpace startIndex paragraphIndex acc ps in
  (forall p, In p (PdfText.paragraphs b) ->
     exists i, 0 <= i /\ Pdf.id p = PdfText.paragraphId i startIndex) /\
  List.NoDup (List.map Pdf.id (PdfText.paragraphs b)).
Proof.
  revert paragraphIndex acc. induction ps as [|paragraph ps IH];
    intros paragraphIndex acc Hpi Hids Hnd; simpl.
  - split; [|exact Hnd]. intros p Hp. destruct (Hids p Hp) as (i & Hi & E).
    exists i. split; [lia|exact E].
  - destruct (PdfText.words isSpace paragraph) as [|w ws].
    + apply IH; [lia| |exact Hnd].
      intros p Hp. destruct (Hids p Hp) as (i & Hi & E). exists i. split; [lia|exact E].
    + apply IH; [lia| |]; cbn [PdfText.paragraphs].
      * intros p Hp. apply List.in_app_or in Hp as [Hp|[<-|[]]].
        -- destruct (Hids p Hp) as (i & Hi & E). exists i. split; [lia|exact E].
        -- exists paragraphIndex. split; [lia|reflexivity].
      * rewrite List.map_app. apply List.NoDup_app; [exact Hnd| |].
        -- simpl. constructor; [intros []|constructor].
        -- intros x Hx [<-|[]]. apply List.in_map_iff in Hx as (p & E & Hp).
           destruct (Hids p Hp) as (i & Hi & E').
           cbn [Pdf.id] in E. rewrite E' in E.
           apply paragraphId_inj in E as [E _]; lia.
Qed.

Lemma loadStep_ids (pages : list (list PdfText.TextItem)) (acc : PdfText.Built) :
  (forall p, In p (PdfText.paragraphs acc) ->
     exists i s, 0 <= i /\ s < PdfText.nextIndex acc /\
                 Pdf.id p = PdfText.paragraphId i s) ->
  List.NoDup (List.map Pdf.id (PdfText.paragraphs acc)) ->
  List.NoDup
    (List.map Pdf.id
       (PdfText.paragraphs (List.fold_left (PdfText.loadStep isSpace) pages acc))).
Proof.
  revert acc. induction pages as [|items pages IH]; intros acc Hids Hnd;
    [exact Hnd|].
  cbn [List.fold_left].
  set (built := PdfText.buildParagraphs isSpace
                  (PdfText.normalizeTextContent isSpace items)
                  (PdfText.nextIndex acc)).
  destruct (buildLoop_ids (PdfText.nextIndex acc) 0
              {| PdfText.paragraphs := []; PdfText.tokens := [];
                 PdfText.nextIndex := PdfText.nextIndex acc |}
              (PdfText.normalizeTextContent isSpace items))
    as [Hbids Hbnd]; [lia|intros ? []|constructor|].
  cbv zeta in Hbids, Hbnd.
  fold (PdfText.buildParagraphs isSpace
          (PdfText.normalizeTextContent isSpace items) (PdfText.nextIndex acc))
    in Hbids, Hbnd. fold built in Hbids, Hbnd.
  destruct (buildLoop_tokens isSpace (PdfText.nextIndex acc) 0
              {| PdfText.paragraphs := []; PdfText.tokens := [];
                 PdfText.nextIndex := PdfText.nextIndex acc |}
              (PdfText.normalizeTextContent isSpace items)) as [Ht Hn].
  destruct (buildLoop_paragraphs isSpace (PdfText.nextIndex acc) 0
              {| PdfText.paragraphs := []; PdfText.tokens := [];
                 PdfText.nextIndex := PdfText.nextIndex acc |}
              (PdfText.normalizeTextContent isSpace items)
              eq_refl (List.Forall_nil _)) as [Hc Hne].
  cbv zeta in Ht, Hn, Hc, Hne.
  cbn [PdfText.tokens PdfText.nextIndex List.app] in Ht, Hn.
  fold (PdfText.buildParagraphs isSpace
          (PdfText.normalizeTextContent isSpace items) (PdfText.nextIndex acc))
    in Ht, Hn, Hc, Hne. fold built in Ht, Hn, Hc, Hne.
  assert (Hgrow : forall p, In p (PdfText.paragraphs built) ->
                            PdfText.nextIndex acc < PdfText.nextIndex built).
  { intros p Hp. rewrite Hn.
    assert (Hlen : (0 < length (PdfText.tokens built))%nat).
    { rewrite <- Hc. rewrite List.Forall_forall in Hne. specialize (Hne p Hp).
      apply List.in_split in Hp as (l1 & l2 & ->).
      rewrite List.map_app, List.concat_app, List.length_app. simpl.
      rewrite List.length_app. destruct (Pdf.tokens p); [contradiction|simpl; lia]. }
    rewrite Ht, numberWords_length in Hlen. lia. }
  assert (Hmono : PdfText.nextIndex acc <= PdfText.nextIndex built)
    by (rewrite Hn; lia).
  apply IH.
  - intros p Hp.
    change (PdfText.paragraphs (PdfText.loadStep isSpace acc items))
      with (PdfText.paragraphs acc ++ PdfText.paragraphs built) in Hp.
    change (PdfText.nextIndex (PdfText.loadStep isSpace acc items))
      with (PdfText.nextIndex built).
    apply List.in_app_or in Hp as [Hp|Hp].
    + destruct (Hids p Hp) as (i & s & Hi & Hs & E).
      exists i, s. repeat split; [exact Hi|lia|exact E].
    + destruct (Hbids p Hp) as (i & Hi & E).
      exists i, (PdfText.nextIndex acc).
      repeat split; [exact Hi|now apply (Hgrow p)|exact E].
  - change (PdfText.paragraphs (PdfText.loadStep isSpace acc items))
      with (PdfText.paragraphs acc ++ PdfText.paragraphs built).
    rewrite List.map_app. apply List.NoDup_app; [exact Hnd|exact Hbnd|].
    intros x Hx Hx'.
    apply List.in_map_iff in Hx as (p & E & Hp).
    apply List.in_map_iff in Hx' as (p' & E' & Hp').
    destruct (Hids p Hp) as (i & s & Hi & Hs & Eid).
    destruct (Hbids p' Hp') as (i' & Hi' & Eid').
    rewrite <- E' in E. rewrite Eid, Eid' in E.
    apply paragraphId_inj in E as [_ E]; lia.
Qed.

(** X16.  Paragraph ids are unique within a load: no two paragraphs of the
    result of [loadPdf] have the same [id], whatever the pages hold (the
    renderer uses the ids as keys). *)
Theorem loadPdf_paragraph_ids_unique (pages : list (list PdfText.TextItem))
    (kind key : string) (title : option string) :
  List.NoDup
    (List.map Pdf.id
       (LoadResult.paragraphs (PdfText.loadPdf isSpace pages kind key title))).
Proof.
  unfold PdfText.loadPdf. cbv zeta. cbn [LoadResult.paragraphs].
  apply loadStep_ids; [intros ? []|constructor].
Qed.

End IdFacts.

Lemma string_append_assoc (a b c : string) :
  ((a +:+ b) +:+ c)%string = (a +:+ b +:+ c)%string.
Proof.
  induction a as [|x a IH]; [reflexivity|].
  change (String x ((a +:+ b) +:+ c) = String x (a +:+ b +:+ c))%string.
  now rewrite IH.
Qed.

Lemma file_key_inj (n n' : string) (sz sz' lm lm' : Z) :
  (n +:+ ":" +:+ JS.toString sz +:+ ":" +:+ JS.toString lm)%string =
  (n' +:+ ":" +:+ JS.toString sz' +:+ ":" +:+ JS.toString lm')%string ->
  n = n' /\ sz = sz' /\ lm = lm'.
Proof.
  intros E.
  change (n +:+ ":" +:+ JS.toString sz +:+ ":" +:+ JS.toString lm)%string
    with (n +:+ String ":" (JS.toString sz) +:+ String ":" (JS.toString lm))%string in E.
  change (n' +:+ ":" +:+ JS.toString sz' +:+ ":" +:+ JS.toString lm')%string
    with (n' +:+ String ":" (JS.toString sz') +:+ String ":" (JS.toString lm'))%string in E.
  change (String ":" (JS.toString sz) +:+ String ":" (JS.toString lm))%string
    with (String ":" (JS.toString sz +:+ String ":" (JS.toString lm)))%string in E.
  change (String ":" (JS.toString sz') +:+ String ":" (JS.toString lm'))%string
    with (String ":" (JS.toString sz' +:+ String ":" (JS.toString lm')))%string in E.
  assert (E2 : ((n +:+ String ":" (JS.toString sz)) +:+ String ":" (JS.toString lm))%string
             = ((n' +:+ String ":" (JS.toString sz')) +:+ String ":" (JS.toString lm'))%string).
  { rewrite !string_append_assoc. exact E. }
  apply (append_split_last (PdfText.isChar ":")) in E2 as [E3 Elm];
    [|reflexivity|apply toString_no_colon..].
  apply (append_split_last (PdfText.isChar ":")) in E3 as [En Esz];
    [|reflexivity|apply toString_no_colon..].
  repeat split; [exact En|now apply toString_inj..].
Qed.

(** X17.  Document ids tell documents apart.  Two files get the same
    document id only if they agree in name, size and modification time, even
    when a name contains colons; two URLs only if they are the same URL; and a
    file never gets the id of a URL.  Different ids mean different storage
    keys, so persisting the position of one file leaves what is restored for
    another file untouched. *)
Theorem docIds_identify_documents (isSpace : ascii -> bool)
    (file file' : PdfText.File) (url url' : string)
    (pages pages' : list (list PdfText.TextItem)) (title title' : option string) :
  let fileId f ps t := LoadResult.docId (PdfText.loadPdfFromFile isSpace f ps t) in
  let urlId u ps t := LoadResult.docId (PdfText.loadPdf isSpace ps "url" u t) in
  (fileId file pages title = fileId file' pages' title' -> file = file') /\
  (urlId url pages title = urlId url' pages' title' -> url = url') /\
  fileId file pages title <> urlId url pages' title' /\
  (forall status,
     PdfText.loadPdfFromUrl isSpace url true status pages title =
     App.Fulfilled (PdfText.loadPdf isSpace pages "url" url title)) /\
  (file <> file' ->
   forall JSON_parse JSON_stringify writeOk localStorage state,
     Storage.restoreReadingState JSON_parse
       (Storage.persistReadingState JSON_stringify writeOk localStorage
          (fileId file pages title) state)
       (fileId file' pages' title') =
     Storage.restoreReadingState JSON_parse localStorage
       (fileId file' pages' title')).
Proof.
  intros fileId urlId. subst fileId urlId.
  assert (Hfile : LoadResult.docId (PdfText.loadPdfFromFile isSpace file pages title) =
                  LoadResult.docId (PdfText.loadPdfFromFile isSpace file' pages' title') ->
                  file = file').
  { unfold PdfText.loadPdfFromFile, PdfText.loadPdf. cbv zeta.
    cbn [LoadResult.docId]. intros E.
    apply (storage_key_inj_gen "file:") in E.
    apply file_key_inj in E as (En & Es & El).
    destruct file, file'. simpl in *. congruence. }
  split; [exact Hfile|]. split; [|split; [|split]].
  - unfold PdfText.loadPdf. cbv zeta. cbn [LoadResult.docId]. intros E.
    now apply (storage_key_inj_gen "url:") in E.
  - unfold PdfText.loadPdfFromFile, PdfText.loadPdf. cbv zeta.
    cbn [LoadResult.docId]. discriminate.
  - reflexivity.
  - intros Hne JSON_parse JSON_stringify writeOk localStorage state.
    unfold Storage.restoreReadingState, Storage.persistReadingState. cbv zeta.
    destruct writeOk; [|reflexivity].
    rewrite lookup_insert_ne; [reflexivity|].
    intros E. apply storage_key_inj in E. apply Hne. now apply Hfile.
Qed.

Lemma docIds_identify_documents_witness :
  SampleText.fileOld <> SampleText.fileNew /\
  LoadResult.docId (PdfText.loadPdfFromFile PdfText.asciiSpace SampleText.fileOld [] None)
    = "file:notes:v2.pdf:1024:1700"%string /\
  LoadResult.docId (PdfText.loadPdfFromFile PdfText.asciiSpace SampleText.fileOld [] None)
    <>
  LoadResult.docId (PdfText.loadPdfFromFile PdfText.asciiSpace SampleText.fileNew [] None).
Proof.
  assert (Hne : SampleText.fileOld <> SampleText.fileNew) by discriminate.
  split; [exact Hne|]. split; [reflexivity|].
  intros E. apply Hne.
  exact (proj1 (docIds_identify_documents PdfText.asciiSpace SampleText.fileOld
                  SampleText.fileNew "" "" [] [] None None) E).
Defined.

(** X18.  A URL whose response is not [ok] loads nothing: the loader rejects
    with an [Error] naming the status, and [handleLoad] then leaves no
    document on screen (no tokens, paragraphs, id or title), switches the
    loading flag off and shows exactly that message. *)
Theorem failed_fetch_is_reported (isSpace : ascii -> bool)
    (JSON_parse : string -> option Storage.JsValue)
    (localStorage : gmap string string) (s : App.AppState)
    (url : string) (status : Z) (pages : list (list PdfText.TextItem))
    (title : option string) :
  let outcome := PdfText.loadPdfFromUrl isSpace url false status pages title in
  let s' := App.handleLoadSettled JSON_parse localStorage
              (App.handleLoadBegin s) outcome in
  (forall result, outcome <> App.Fulfilled result) /\
  App.error s' =
    Some ("Failed to load PDF from URL (" +:+ JS.toString status +:+ ")")%string /\
  App.tokens s' = [] /\ App.paragraphs s' = [] /\
  App.docId s' = None /\ App.docTitle s' = None /\
  App.isLoading s' = false /\
  App.pageIndex s' = App.pageIndex s /\ App.fontSize s' = App.fontSize s.
Proof.
  intros outcome s'. subst outcome s'. unfold PdfText.loadPdfFromUrl.
  split; [discriminate|]. repeat split.
Qed.

(** ** Settling twice, and resizing without a change *)

Lemma settle_state (viewport flow : HTMLElement) (s : App.AppState) :
  App.tokens s <> [] ->
  let s' := fst (App.settle (Some viewport) (Some flow) s) in
  App.tokens s' = App.tokens s /\
  App.pageCount s' = Paginate.getPageCount viewport flow /\
  App.pageIndex s' =
    App.targetPage (App.selectTargetPage flow viewport s
                      (Paginate.getPageCount viewport flow)) /\
  App.anchorTokenRef s' =
    App.anchorAfter (App.selectTargetPage flow viewport s
                       (Paginate.getPageCount viewport flow)) /\
  App.pendingPageRef s' = None /\
  snd (App.settle (Some viewport) (Some flow) s) = Some (App.pageIndex s').
Proof.
  intros Hne s'. subst s'. rewrite (settle_rendered viewport flow s Hne).
  cbv zeta. simpl. repeat split.
  unfold App.selectTargetPage.
  destruct (App.pendingPageRef s); [reflexivity|].
  now destruct (App.anchorTokenRef s).
Qed.

(** X19.  Settling is idempotent once the anchor is out of the way.  With a
    document rendered, if no page index was pending or no anchor was set,
    then settling a second time under the same layout changes nothing: the
    state after the second settle is the state after the first, and the same
    page is scheduled. *)
Theorem settle_twice_same (viewport flow : HTMLElement) (s : App.AppState) :
  App.tokens s <> [] ->
  App.pendingPageRef s = None \/ App.anchorTokenRef s = None ->
  let s1 := fst (App.settle (Some viewport) (Some flow) s) in
  App.settle (Some viewport) (Some flow) s1 = (s1, Some (App.pageIndex s1)).
Proof.
  intros Hne Hslots s1.
  destruct (settle_state viewport flow s Hne)
    as (Htok & Hcount & Hpage & Hanchor & Hpending & _).
  fold s1 in Htok, Hcount, Hpage, Hanchor, Hpending.
  pose proof (getPageCount_ge_1 viewport flow) as Hn.
  assert (Hanchor1 : App.anchorTokenRef s1 = None).
  { rewrite Hanchor. unfold App.selectTargetPage.
    destruct Hslots as [Hp|Ha].
    - rewrite Hp. now destruct (App.anchorTokenRef s).
    - rewrite Ha. now destruct (App.pendingPageRef s). }
  assert (Hrange : 0 <= App.pageIndex s1 <= Paginate.getPageCount viewport flow - 1).
  { rewrite Hpage. unfold App.selectTargetPage.
    destruct (App.pendingPageRef s); simpl; [unfold JS.clamp; lia|].
    destruct (App.anchorTokenRef s); simpl; [|unfold JS.clamp; lia].
    destruct (Paginate.getTokenPageIndex _ _ _); unfold JS.clamp; lia. }
  assert (E : JS.clamp (App.pageIndex s1) 0 (Paginate.getPageCount viewport flow - 1)
              = App.pageIndex s1) by (unfold JS.clamp; lia).
  rewrite (settle_rendered viewport flow s1) by congruence.
  cbv zeta. unfold App.selectTargetPage. rewrite Hpending, Hanchor1.
  cbn [App.targetPage App.anchorAfter App.pendingAfter]. rewrite E.
  clear Htok Hpage Hanchor Hrange E. clearbody s1.
  destruct s1. simpl in *. subst. reflexivity.
Qed.

Lemma settle_twice_same_witness :
  let s := App.onFontSizeChange (Some Sample.viewport800) (Some Sample.flow1600)
             Sample.reading 22 in
  let s1 := fst (App.settle (Some Sample.viewport800) (Some Sample.flow2400) s) in
  App.pendingPageRef s = None /\
  App.pageIndex s1 = 2 /\
  App.settle (Some Sample.viewport800) (Some Sample.flow2400) s1 = (s1, Some 2).
Proof.
  intros s s1. split; [reflexivity|]. split; [reflexivity|].
  exact (settle_twice_same Sample.viewport800 Sample.flow2400 s
           ltac:(discriminate) (or_introl eq_refl)).
Defined.

(** X20.  A resize that leaves the layout as it was does not move the
    reader.  With a document rendered, no page index pending and the page
    index within the pages of the layout, the resize callback followed by the
    settle under that same layout ends on the page that was showing, and
    with both slots empty. *)
Theorem resize_without_change_keeps_page (viewport flow : HTMLElement)
    (s : App.AppState) :
  App.tokens s <> [] ->
  App.pendingPageRef s = None ->
  0 <= App.pageIndex s <= Paginate.getPageCount viewport flow - 1 ->
  let s' := fst (App.settle (Some viewport) (Some flow)
                   (App.onResize (Some viewport) (Some flow) s)) in
  App.pageIndex s' = App.pageIndex s /\
  App.anchorTokenRef s' = None /\
  App.pendingPageRef s' = None.
Proof.
  intros Hne Hpending Hrange s'.
  set (r := App.onResize (Some viewport) (Some flow) s) in *.
  assert (Hr : App.tokens r = App.tokens s /\ App.pageIndex r = App.pageIndex s /\
               App.pendingPageRef r = None /\
               App.anchorTokenRef r =
                 Paginate.findAnchorTokenIndex (App.tokens s) flow viewport
                   (App.pageIndex s)).
  { subst r. unfold App.onResize, App.captureAnchor. simpl.
    destruct (App.tokens s); [contradiction|]. repeat split. exact Hpending. }
  destruct Hr as (Htok & Hidx & Hp & Ha).
  destruct (settle_state viewport flow r) as (_ & _ & Hpage & Hanchor & Hpend & _);
    [congruence|].
  fold s' in Hpage, Hanchor, Hpend.
  unfold App.selectTargetPage in Hpage, Hanchor. rewrite Hp in Hpage, Hanchor.
  assert (Hclamp : JS.clamp (App.pageIndex s) 0
                     (Paginate.getPageCount viewport flow - 1) = App.pageIndex s)
    by (unfold JS.clamp; lia).
  split; [|split; [|exact Hpend]].
  - rewrite Hpage, Hidx, Ha.
    destruct (Paginate.findAnchorTokenIndex (App.tokens s) flow viewport
                (App.pageIndex s)) as [t|] eqn:Hanc; simpl; [|exact Hclamp].
    apply findAnchor_first in Hanc
      as (before & token & after & _ & Ht & Hon & _).
    unfold Spec.onPage in Hon. rewrite Ht in Hon.
    destruct (Paginate.getTokenPageIndex t flow viewport) as [q|];
      [|discriminate].
    apply Z.eqb_eq in Hon. subst q. exact Hclamp.
  - rewrite Hanchor. now destruct (App.anchorTokenRef r).
Qed.

Lemma resize_without_change_keeps_page_witness :
  App.pendingPageRef Sample.reading = None /\
  App.pageIndex
    (fst (App.settle (Some Sample.viewport800) (Some Sample.flow1600)
            (App.onResize (Some Sample.viewport800) (Some Sample.flow1600)
               Sample.reading))) = 1.
Proof.
  split; [reflexivity|].
  destruct (resize_without_change_keeps_page Sample.viewport800 Sample.flow1600
              Sample.reading) as (H & _ & _);
    [discriminate|reflexivity|vm_compute; split; discriminate|].
  rewrite H. reflexivity.
Defined.
